(** * AutoWeave genetic deduplication and reconstruction

    A shallow embedding of [scripts/intelligent_deduplication.py]
    (class [IntelligentDeduplicator]) and of
    [scripts/genetic-reconstruction.py] (class [GeneticReconstruction]),
    with the properties their specification states.

    Conventions of the embedding.
    - A Python [str] is a Rocq [string]; each [ascii] stands for one code
      point below 256.  [str.strip], [str.split], [str.lower] and
      [str.encode] are modelled exactly on that range.
    - A Python [float] is a primitive binary64 [float]; [/], [-] and [>]
      are the IEEE operations Python performs.
    - [hashlib.sha256] is implemented (FIPS 180-4) on 32-bit words held in
      [Z], the wrap-around written out.
    - The SQLite table [content_hashes] (primary key [content_hash]) is a
      [gmap] from the hash to its row; the table [gene_evolution] (primary
      key [gene_id]) is the list of its rows in insertion order, the
      uniqueness constraint being enforced by the two insert statements.
    - [datetime.now()] is read through a clock argument: [clk n] is the
      value of the [n]-th reading made during the call.
    - An exception leaves the operation through [inl]; the transaction is
      then not committed and the caller's database is unchanged. *)

From Stdlib Require Import ZArith String Ascii List Bool Lia Uint63 Sorting.Sorted.
From Stdlib Require Import Floats.PrimFloat Floats.SpecFloat Floats.FloatOps Floats.FloatAxioms.
From stdpp Require Import base option list gmap sets strings.

Import ListNotations.

#[local] Open Scope string_scope.
#[local] Open Scope list_scope.

(** ** Python string primitives *)

Module Py.

Definition code (c : ascii) : N := N_of_ascii c.

(** [str.isspace] on one code point below 256. *)
Definition isspace (c : ascii) : bool :=
  let n := code c in
  ((9 <=? n) && (n <=? 13) || (28 <=? n) && (n <=? 32)
   || (n =? 133) || (n =? 160))%N.

(** [str.lower] on one code point below 256. *)
Definition lower_char (c : ascii) : ascii :=
  let n := code c in
  if ((65 <=? n) && (n <=? 90)
      || (192 <=? n) && (n <=? 222) && negb (n =? 215))%N
  then ascii_of_N (n + 32) else c.

Fixpoint lower (s : string) : string :=
  match s with
  | EmptyString => EmptyString
  | String c s' => String (lower_char c) (lower s')
  end.

(** [s.lstrip()], [s.rstrip()] and [s.strip()] without argument. *)
Fixpoint lstrip (s : string) : string :=
  match s with
  | EmptyString => EmptyString
  | String c s' => if isspace c then lstrip s' else s
  end.

Fixpoint rstrip (s : string) : string :=
  match s with
  | EmptyString => EmptyString
  | String c s' =>
      match rstrip s' with
      | EmptyString => if isspace c then EmptyString else String c EmptyString
      | r => String c r
      end
  end.

Definition strip (s : string) : string := rstrip (lstrip s).

(** [s.split(sep)] for a one-character separator: never empty. *)
Fixpoint split_on (sep : ascii) (s : string) : list string :=
  match s with
  | EmptyString => [EmptyString]
  | String c s' =>
      if Ascii.eqb c sep then EmptyString :: split_on sep s'
      else match split_on sep s' with
           | [] => [String c EmptyString]
           | w :: ws => String c w :: ws
           end
  end.

(** [s.split()] without argument: the maximal runs of non-space
    characters, none of them empty. *)
Fixpoint split (s : string) : list string :=
  match s with
  | EmptyString => []
  | String c s' =>
      if isspace c then split s'
      else match s' with
           | EmptyString => [String c EmptyString]
           | String c' _ =>
               if isspace c' then String c EmptyString :: split s'
               else match split s' with
                    | [] => [String c EmptyString]
                    | w :: ws => String c w :: ws
                    end
           end
  end.

(** [sep.join(l)]. *)
Fixpoint join (sep : string) (l : list string) : string :=
  match l with
  | [] => EmptyString
  | [w] => w
  | w :: ws => w ++ sep ++ join sep ws
  end.

(** [s.startswith(p)] and its form with a tuple of prefixes. *)
Fixpoint startswith (s p : string) : bool :=
  match p, s with
  | EmptyString, _ => true
  | String _ _, EmptyString => false
  | String a p', String b s' => Ascii.eqb a b && startswith s' p'
  end.

Definition startswith_any (s : string) (ps : list string) : bool :=
  existsb (startswith s) ps.

(** [len(s)]. *)
Definition len (s : string) : Z := Z.of_nat (String.length s).

(** [s.encode()]: UTF-8, one or two bytes for a code point below 256. *)
Definition encode_char (c : ascii) : list Z :=
  let n := Z.of_N (code c) in
  if (n <? 128)%Z then [n]
  else [Z.lor 192 (Z.shiftr n 6); Z.lor 128 (Z.land n 63)].

Fixpoint encode (s : string) : list Z :=
  match s with
  | EmptyString => []
  | String c s' => encode_char c ++ encode s'
  end.

(** [s[:n]]. *)
Fixpoint take (n : nat) (s : string) : string :=
  match n, s with
  | S n', String c s' => String c (take n' s')
  | _, _ => EmptyString
  end.

End Py.

(** ** SHA-256 ([hashlib.sha256(...).hexdigest()]) *)

Module SHA256.

#[local] Open Scope Z_scope.

Definition w32 (x : Z) : Z := x mod 2 ^ 32.
Definition add32 (x y : Z) : Z := w32 (x + y).
Definition rotr (n x : Z) : Z :=
  Z.lor (Z.shiftr x n) (w32 (Z.shiftl x (32 - n))).
Definition not32 (x : Z) : Z := Z.lxor x 0xffffffff.

Definition Ch (x y z : Z) : Z := Z.lxor (Z.land x y) (Z.land (not32 x) z).
Definition Maj (x y z : Z) : Z :=
  Z.lxor (Z.lxor (Z.land x y) (Z.land x z)) (Z.land y z).
Definition Sigma0 (x : Z) : Z := Z.lxor (Z.lxor (rotr 2 x) (rotr 13 x)) (rotr 22 x).
Definition Sigma1 (x : Z) : Z := Z.lxor (Z.lxor (rotr 6 x) (rotr 11 x)) (rotr 25 x).
Definition sigma0 (x : Z) : Z := Z.lxor (Z.lxor (rotr 7 x) (rotr 18 x)) (Z.shiftr x 3).
Definition sigma1 (x : Z) : Z := Z.lxor (Z.lxor (rotr 17 x) (rotr 19 x)) (Z.shiftr x 10).

(** The constants are derived as FIPS 180-4 defines them: the first 32
    bits of the fractional parts of the cube roots (for [K]) and of the
    square roots (for [H0]) of the first primes. *)
Definition is_prime (k : Z) : bool :=
  (1 <? k) && forallb (fun d => negb (k mod Z.of_nat d =? 0))
                      (List.seq 2 (Z.to_nat k - 2)).

Definition first_primes (n : nat) : list Z :=
  List.firstn n (List.filter is_prime (List.map Z.of_nat (List.seq 2 310))).

(** The integer cube root of [n], for [n] below 2 ^ 108, bit by bit. *)
Definition cube_root (n : Z) : Z :=
  List.fold_left
    (fun x i => let y := x + 2 ^ Z.of_nat i in if y * y * y <=? n then y else x)
    (List.rev (List.seq 0 36)) 0.

Definition K : list Z :=
  Eval vm_compute in
    List.map (fun p => cube_root (p * 2 ^ 96) mod 2 ^ 32) (first_primes 64).

Definition H0 : list Z :=
  Eval vm_compute in
    List.map (fun p => Z.sqrt (p * 2 ^ 64) mod 2 ^ 32) (first_primes 8).

(** Padding: the bit 1, zeros up to 56 modulo 64, the bit length on 8 bytes. *)
Definition be_bytes (n : nat) (x : Z) : list Z :=
  List.map (fun i => Z.land (Z.shiftr x (8 * Z.of_nat i)) 255) (List.rev (List.seq 0 n)).

Definition pad (msg : list Z) : list Z :=
  let l := Z.of_nat (List.length msg) in
  let k := Z.to_nat ((55 - l) mod 64) in
  msg ++ [128] ++ List.repeat 0 k ++ be_bytes 8 (8 * l).

Fixpoint words (fuel : nat) (bs : list Z) : list Z :=
  match fuel, bs with
  | S f, a :: b :: c :: d :: bs' =>
      (Z.shiftl a 24 + Z.shiftl b 16 + Z.shiftl c 8 + d) :: words f bs'
  | _, _ => []
  end.

Fixpoint blocks (fuel : nat) (ws : list Z) : list (list Z) :=
  match fuel, ws with
  | S f, _ :: _ => List.firstn 16 ws :: blocks f (List.skipn 16 ws)
  | _, _ => []
  end.

(** Message schedule: [w] holds W(t-1) ... W(0), newest first. *)
Fixpoint schedule (n : nat) (w : list Z) : list Z :=
  match n with
  | O => w
  | S n' =>
      let g i := List.nth i w 0 in
      schedule n' (add32 (add32 (sigma1 (g 1%nat)) (g 6%nat))
                         (add32 (sigma0 (g 14%nat)) (g 15%nat)) :: w)
  end.

Definition round (st : list Z) (kw : Z * Z) : list Z :=
  match st with
  | [a; b; c; d; e; f; g; h] =>
      let t1 := add32 (add32 (add32 h (Sigma1 e)) (add32 (Ch e f g) (fst kw))) (snd kw) in
      let t2 := add32 (Sigma0 a) (Maj a b c) in
      [add32 t1 t2; a; b; c; add32 d t1; e; f; g]
  | _ => st
  end.

Definition compress (h : list Z) (block : list Z) : list Z :=
  let w := List.rev (schedule 48 (List.rev block)) in
  let st := List.fold_left round (List.combine K w) h in
  List.map (fun p => add32 (fst p) (snd p)) (List.combine h st).

Definition digest (msg : list Z) : list Z :=
  let bs := pad msg in
  let ws := words (List.length bs) bs in
  List.fold_left compress (blocks (List.length ws) ws) H0.

Definition hex_digit (n : Z) : ascii :=
  ascii_of_N (Z.to_N (if n <? 10 then 48 + n else 87 + n)).

Definition hex_word (x : Z) : list ascii :=
  List.map (fun i => hex_digit (Z.land (Z.shiftr x (4 * Z.of_nat i)) 15))
           (List.rev (List.seq 0 8)).

Definition hexdigest (msg : list Z) : string :=
  string_of_list_ascii (List.concat (List.map hex_word (digest msg))).

End SHA256.

(** ** Values exchanged with Python and SQLite *)

(** ISO-8601 text of [datetime.now().isoformat()]. *)
Definition Timestamp : Type := string.

(** The values held by the dictionaries the methods return and by the
    JSON documents they store. *)
Inductive PyVal : Type :=
| PNone
| PBool (b : bool)
| PInt (z : Z)
| PFloat (x : float)
| PStr (s : string).

(** A dictionary with string keys. *)
Abbreviation Dict := (gmap string PyVal).

Definition dict (items : list (string * PyVal)) : Dict := list_to_map items.

Inductive Exn : Type :=
| IntegrityError   (* sqlite3.IntegrityError: UNIQUE constraint failed *)
| IndexError.      (* list index out of range *)

(** The float literals of the source: the binary64 values nearest to
    0.8, 0.3 and 0.95, which is how Python reads them. *)
Definition lit_0_8 : float := 0x1.999999999999ap-1.
Definition lit_0_3 : float := 0x1.3333333333333p-2.
Definition lit_0_95 : float := 0x1.e666666666666p-1.

(** [a / b] on two non-negative Python integers (exact below 2^53). *)
Definition truediv (a b : nat) : float :=
  PrimFloat.div (PrimFloat.of_uint63 (Uint63.of_Z (Z.of_nat a)))
                (PrimFloat.of_uint63 (Uint63.of_Z (Z.of_nat b))).

(** ** [ORDER BY] *)

Module Sql.

(** The rows sorted as [ORDER BY] sorts them: [before x h] tells that [x]
    goes before [h]; rows that compare equal keep the order in which they
    are read. *)
Fixpoint insert_where {A : Type} (before : A -> A -> bool) (x : A) (l : list A)
  : list A :=
  match l with
  | [] => [x]
  | h :: t => if before x h then x :: l else h :: insert_where before x t
  end.

Definition order_where {A : Type} (before : A -> A -> bool) (l : list A) : list A :=
  fold_left (fun acc x => insert_where before x acc) l [].

(** The sum of a column, [0] when there is no row. *)
Definition sum (l : list Z) : Z := foldr Z.add 0%Z l.

End Sql.

(** ** IntelligentDeduplicator *)

Module Dedup.

(** The argument [gene_data]: keys [content], [type], [name], and
    optionally [complexity]. *)
Record GeneData : Type := mkGene {
  content : string;
  type : string;
  name : string;
  complexity : option Z
}.

(** A row of [content_hashes], without its key [content_hash]. *)
Record ContentHashRecord : Type := mkHashRow {
  first_seen : Timestamp;
  last_seen : Timestamp;
  occurrence_count : Z;
  representative_gene_id : string;
  file_paths : list string;              (* JSON array *)
  metadata : list (string * PyVal)       (* JSON object *)
}.

(** A row of [gene_evolution]. *)
Record EvolutionRecord : Type := mkEvolution {
  gene_id : string;
  content_hash : string;
  parent_gene_id : option string;        (* NULLABLE *)
  evolution_type : string;
  confidence_score : float;
  timestamp : Timestamp;
  evolution_metadata : list (string * PyVal)
}.

Record DB : Type := mkDB {
  content_hashes : gmap string ContentHashRecord;
  gene_evolution : list EvolutionRecord
}.

(** The database [init_database] creates. *)
Definition init_database : DB := mkDB ∅ [].

(** *** Normalisation and hashing *)

Definition comment_prefixes : list string := ["#"; "//"; "/*"; "*"].

Definition newline : ascii := "010"%char.

(** One turn of the loop of [_normalize_content]. *)
Definition normalize_line (normalized_lines : list string) (line : string)
  : list string :=
  let clean_line := Py.strip line in
  if String.eqb clean_line "" || Py.startswith_any clean_line comment_prefixes
  then normalized_lines
  else normalized_lines ++ [Py.join " " (Py.split clean_line)].

Definition _normalize_content (content : string) : string :=
  let lines := Py.split_on newline content in
  let normalized_lines := fold_left normalize_line lines [] in
  Py.join (String newline "") normalized_lines.

Definition composite (content gene_type name : string) : string :=
  _normalize_content content ++ "::" ++ gene_type ++ "::" ++ Py.lower name.

Definition calculate_content_hash (content gene_type name : string) : string :=
  SHA256.hexdigest (Py.encode (composite content gene_type name)).

Definition hash_of (g : GeneData) : string :=
  calculate_content_hash (content g) (type g) (name g).

(** *** The store *)

Definition is_duplicate (db : DB) (gene_data : GeneData) : bool * option string :=
  match content_hashes db !! hash_of gene_data with
  | Some result => (true, Some (representative_gene_id result))
  | None => (false, None)
  end.

(** [INSERT INTO gene_evolution]: the primary key [gene_id] must be new. *)
Definition insert_evolution (row : EvolutionRecord) (rows : list EvolutionRecord)
  : option (list EvolutionRecord) :=
  if existsb (fun r => String.eqb (gene_id r) (gene_id row)) rows then None
  else Some (rows ++ [row]).

(** [INSERT OR REPLACE INTO gene_evolution]: a row with the same
    [gene_id] is deleted before the new one is inserted. *)
Definition insert_or_replace_evolution (row : EvolutionRecord)
  (rows : list EvolutionRecord) : list EvolutionRecord :=
  List.filter (fun r => negb (String.eqb (gene_id r) (gene_id row))) rows ++ [row].

Definition register_gene (clk : nat -> Timestamp) (db : DB)
  (gene_data : GeneData) (gene_id file_path : string) : Exn + DB * Dict :=
  let content_hash := hash_of gene_data in
  match content_hashes db !! content_hash with
  | Some existing =>
      let existing_paths :=
        if existsb (String.eqb file_path) (file_paths existing)
        then file_paths existing
        else file_paths existing ++ [file_path] in
      let updated :=
        mkHashRow (first_seen existing) (clk 0%nat)
                  (occurrence_count existing + 1)
                  (representative_gene_id existing)
                  existing_paths (metadata existing) in
      match existing_paths with
      | [] => inl IndexError
      | original_file :: _ =>
          let row :=
            mkEvolution gene_id content_hash
              (Some (representative_gene_id existing))
              "duplication" lit_0_95 (clk 1%nat)
              [("original_file", PStr original_file);
               ("duplicate_file", PStr file_path)] in
          inr (mkDB (<[content_hash := updated]> (content_hashes db))
                    (insert_or_replace_evolution row (gene_evolution db)),
               dict [("is_duplicate", PBool true);
                     ("representative_gene_id", PStr (representative_gene_id existing));
                     ("occurrence_count", PInt (occurrence_count existing + 1));
                     ("action", PStr "linked_to_existing")])
      end
  | None =>
      let created :=
        mkHashRow (clk 0%nat) (clk 1%nat) 1 gene_id [file_path]
                  [("complexity", PInt (default 0%Z (complexity gene_data)))] in
      let row :=
        mkEvolution gene_id content_hash None "creation" 1%float (clk 2%nat)
                    [("file", PStr file_path);
                     ("size", PInt (Py.len (content gene_data)))] in
      match insert_evolution row (gene_evolution db) with
      | None => inl IntegrityError
      | Some rows =>
          inr (mkDB (<[content_hash := created]> (content_hashes db)) rows,
               dict [("is_duplicate", PBool false);
                     ("gene_id", PStr gene_id);
                     ("action", PStr "created_new")])
      end
  end.

(** *** Classification of a change *)

Definition _calculate_similarity (content1 content2 : string) : float :=
  let words1 : gset string := list_to_set (Py.split (_normalize_content content1)) in
  let words2 : gset string := list_to_set (Py.split (_normalize_content content2)) in
  if bool_decide (words1 = ∅) && bool_decide (words2 = ∅) then 1%float
  else
    let intersection := size (words1 ∩ words2) in
    let union := size (words1 ∪ words2) in
    if (0 <? union)%nat then truediv intersection union else 0%float.

Definition detect_mutations (old_gene new_gene : GeneData) : Dict :=
  let old_hash := hash_of old_gene in
  let new_hash := hash_of new_gene in
  if String.eqb old_hash new_hash
  then dict [("type", PStr "no_change"); ("confidence", PFloat 1%float)]
  else
    let similarity := _calculate_similarity (content old_gene) (content new_gene) in
    if (lit_0_8 <? similarity)%float then
      dict [("type", PStr "mutation"); ("confidence", PFloat similarity);
            ("old_hash", PStr old_hash); ("new_hash", PStr new_hash);
            ("similarity", PFloat similarity)]
    else if (lit_0_3 <? similarity)%float then
      dict [("type", PStr "major_refactor"); ("confidence", PFloat similarity);
            ("old_hash", PStr old_hash); ("new_hash", PStr new_hash);
            ("similarity", PFloat similarity)]
    else
      dict [("type", PStr "replacement"); ("confidence", PFloat (1 - similarity)%float);
            ("old_hash", PStr old_hash); ("new_hash", PStr new_hash);
            ("similarity", PFloat similarity)].

(** *** History of a gene *)

(** One entry of the list [get_gene_history] returns. *)
Record HistoryEntry : Type := mkEntry {
  entry_evolution_type : string;
  entry_confidence_score : float;
  entry_timestamp : Timestamp;
  entry_metadata : list (string * PyVal);
  entry_parent_gene_id : option string
}.

Definition history_entry (row : EvolutionRecord) : HistoryEntry :=
  mkEntry (evolution_type row) (confidence_score row) (timestamp row)
          (evolution_metadata row) (parent_gene_id row).

(** [WHERE gene_id = ? OR parent_gene_id = ?]. *)
Definition cites (id : string) (row : EvolutionRecord) : bool :=
  String.eqb (gene_id row) id
  || match parent_gene_id row with
     | Some parent => String.eqb parent id
     | None => false
     end.

(** [ORDER BY timestamp]: the timestamps are the texts of [isoformat()],
    which SQLite stores as texts and compares character by character. *)
Definition earlier (a b : EvolutionRecord) : bool :=
  String.ltb (timestamp a) (timestamp b).

Definition get_gene_history (db : DB) (id : string) : list HistoryEntry :=
  List.map history_entry
    (Sql.order_where earlier (List.filter (cites id) (gene_evolution db))).

(** *** The statistics of [get_duplication_report] *)

(** The rows of [content_hashes], as a [SELECT] without [WHERE] reads them. *)
Definition rows (db : DB) : list ContentHashRecord :=
  snd <$> map_to_list (content_hashes db).

(** [WHERE occurrence_count > 1]. *)
Definition duplicated (row : ContentHashRecord) : Prop :=
  (1 < occurrence_count row)%Z.

(** [SELECT COUNT( * ) FROM content_hashes]. *)
Definition unique_contents (db : DB) : Z := Z.of_nat (List.length (rows db)).

(** [SELECT SUM(occurrence_count) FROM content_hashes], [or 0]. *)
Definition total_genes (db : DB) : Z := Sql.sum (occurrence_count <$> rows db).

(** [SELECT COUNT( * ) FROM content_hashes WHERE occurrence_count > 1]. *)
Definition duplicated_contents (db : DB) : Z :=
  Z.of_nat (List.length (filter duplicated (rows db))).

(** [SELECT SUM(occurrence_count - 1) FROM content_hashes
    WHERE occurrence_count > 1], [or 0]. *)
Definition duplicate_instances (db : DB) : Z :=
  Sql.sum ((fun row => occurrence_count row - 1)%Z <$> filter duplicated (rows db)).

(** One element of [top_duplicates]. *)
Record TopDuplicate : Type := mkTop {
  top_gene_id : string;
  top_count : Z;
  top_files : list string
}.

Definition top_entry (row : ContentHashRecord) : TopDuplicate :=
  mkTop (representative_gene_id row) (occurrence_count row) (file_paths row).

(** [ORDER BY occurrence_count DESC]. *)
Definition more_often (a b : ContentHashRecord) : bool :=
  (occurrence_count b <? occurrence_count a)%Z.

(** [SELECT representative_gene_id, occurrence_count, file_paths
    FROM content_hashes WHERE occurrence_count > 1
    ORDER BY occurrence_count DESC LIMIT 10]. *)
Definition top_duplicates (db : DB) : list TopDuplicate :=
  List.map top_entry
    (List.firstn 10 (Sql.order_where more_often (filter duplicated (rows db)))).

End Dedup.


(** ** GeneticReconstruction *)

Module Reconstruction.

(** [json.loads] of a stored [content]: an object whose methods the
    loop can call, or a text or value on which the loop raises. *)
Inductive Json : Type :=
| JObject (members : Dict)
| JInvalid.

(** A row of the table [genes].  Its declaration is not part of these
    sources; [created_at] is an instant, compared as SQLite compares
    the column. *)
Record GeneRow : Type := mkRow {
  gene_id : string;
  file_path : string;
  created_at : Z;
  content : Json
}.

Record Reconstructed : Type := mkReconstructed {
  r_file_path : string;
  r_version : string;
  reconstructed_content : string;
  gene_count : Z;
  genes_used : list string;
  content_hash : string
}.

(** The dictionaries [reconstruct_file] returns, by their shape. *)
Inductive Outcome : Type :=
| Success (r : Reconstructed)
| ConnectionFailed                          (* "Database connection failed" *)
| NoGenes (file_path version : string)      (* "No genes found for file: ..." *)
| Failed (file_path version : string).      (* "Reconstruction failed: ..." *)

(** [x LIKE p] of SQLite: [%] any run, [_] any one character, ASCII
    letters compared without case. *)
Definition fold_case (c : ascii) : ascii :=
  let n := Py.code c in
  if ((65 <=? n) && (n <=? 90))%N then ascii_of_N (n + 32) else c.

Fixpoint like (p x : string) {struct p} : bool :=
  match p with
  | EmptyString => match x with EmptyString => true | _ => false end
  | String c p' =>
      if Ascii.eqb c "%" then
        (fix any (x : string) : bool :=
           like p' x || match x with
                        | EmptyString => false
                        | String _ x' => any x'
                        end) x
      else
        match x with
        | EmptyString => false
        | String d x' =>
            (Ascii.eqb c "_" || Ascii.eqb (fold_case c) (fold_case d)) && like p' x'
        end
  end.

(** [ORDER BY created_at DESC], rows of equal instant kept in table order. *)
Fixpoint insert_desc (g : GeneRow) (l : list GeneRow) : list GeneRow :=
  match l with
  | [] => [g]
  | h :: t => if (created_at h <? created_at g)%Z then g :: l
              else h :: insert_desc g t
  end.

Definition order_by_created_at_desc (l : list GeneRow) : list GeneRow :=
  fold_left (fun acc g => insert_desc g acc) l [].

Definition select_genes (table : list GeneRow) (path version : string)
  : list GeneRow :=
  let matching g :=
    String.eqb (file_path g) path
    && (String.eqb version "latest"
        || like ("%" ++ version ++ "%") (gene_id g)) in
  order_by_created_at_desc (List.filter matching table).

(** The loop over [genes]: [None] when an iteration raises. *)
Fixpoint walk (genes : list GeneRow) (reconstructed_content : string)
  (gene_count : Z) : option (PyVal * Z) :=
  match genes with
  | [] => Some (PStr reconstructed_content, gene_count)
  | gene :: rest =>
      match content gene with
      | JInvalid => None
      | JObject gene_data =>
          match gene_data !! "type" with
          | Some (PStr t) =>
              if String.eqb t "function" then
                match default (PStr "") (gene_data !! "code") with
                | PStr code =>
                    walk rest
                         (reconstructed_content ++ code
                          ++ String Dedup.newline (String Dedup.newline ""))
                         (gene_count + 1)
                | _ => None
                end
              else if String.eqb t "full_file" then
                Some (default (PStr "") (gene_data !! "content"), 1%Z)
              else walk rest reconstructed_content gene_count
          | _ => walk rest reconstructed_content gene_count
          end
      end
  end.

Definition reconstruct_file (conn : option (list GeneRow))
  (file_path version : string) : Outcome :=
  match conn with
  | None => ConnectionFailed
  | Some table =>
      let genes := select_genes table file_path version in
      match genes with
      | [] => NoGenes file_path version
      | _ =>
          match walk genes "" 0%Z with
          | Some (PStr reconstructed_content, gene_count) =>
              Success (mkReconstructed file_path version
                         reconstructed_content gene_count
                         (List.map gene_id genes)
                         (Py.take 8 (SHA256.hexdigest (Py.encode reconstructed_content))))
          | _ => Failed file_path version
          end
      end
  end.

(** *** The files on record *)

(** One element of [available_files]. *)
Record FileInfo : Type := mkInfo {
  info_file_path : string;
  info_gene_count : Z;
  info_last_update : Z
}.

Definition same_path (path : string) (g : GeneRow) : bool :=
  String.eqb (file_path g) path.

(** [MAX(created_at)] over a group, which is never empty. *)
Definition max_created_at (first : GeneRow) (others : list GeneRow) : Z :=
  fold_left (fun m g => Z.max m (created_at g)) others (created_at first).

(** [GROUP BY file_path] with [COUNT( * )] and [MAX(created_at)]: the group of
    the first row, then the groups of the rows of the other files.  The
    fuel is the number of rows. *)
Fixpoint group_by_file_path (fuel : nat) (table : list GeneRow) : list FileInfo :=
  match fuel, table with
  | S fuel', g :: rest =>
      let group := List.filter (same_path (file_path g)) rest in
      mkInfo (file_path g) (Z.of_nat (S (List.length group))) (max_created_at g group)
      :: group_by_file_path fuel'
           (List.filter (fun g' => negb (same_path (file_path g) g')) rest)
  | _, _ => []
  end.

(** [ORDER BY last_update DESC]. *)
Definition updated_later (a b : FileInfo) : bool :=
  (info_last_update b <? info_last_update a)%Z.

(** The dictionaries [list_available_files] returns, by their shape. *)
Inductive Listing : Type :=
| Listed (available_files : list FileInfo) (total_files : Z)
| ListingUnavailable.                       (* "Database connection failed" *)

Definition list_available_files (conn : option (list GeneRow)) : Listing :=
  match conn with
  | None => ListingUnavailable
  | Some table =>
      let files :=
        Sql.order_where updated_later
          (group_by_file_path (List.length table) table) in
      Listed files (Z.of_nat (List.length files))
  end.

(** *** The turns of the loop of [reconstruct_file] *)

(** What one turn of the loop does with a gene. *)
Inductive Turn : Type :=
| Raises                      (* the content does not decode, or the code is not a text *)
| Appends (code : string)     (* a function gene *)
| Replaces (text : PyVal)     (* a full-file gene: the loop stops *)
| Passes.                     (* any other type *)

Definition turn (g : GeneRow) : Turn :=
  match content g with
  | JInvalid => Raises
  | JObject gene_data =>
      match gene_data !! "type" with
      | Some (PStr t) =>
          if String.eqb t "function" then
            match default (PStr "") (gene_data !! "code") with
            | PStr code => Appends code
            | _ => Raises
            end
          else if String.eqb t "full_file" then
            Replaces (default (PStr "") (gene_data !! "content"))
          else Passes
      | _ => Passes
      end
  end.

End Reconstruction.

(** ** The specification's wording of the normaliser and of the similarity *)

Module Spec.

(** Each maximal run of whitespace becomes one space. *)
Fixpoint collapse_runs (s : string) : string :=
  match s with
  | EmptyString => EmptyString
  | String c s' =>
      if Py.isspace c then
        match s' with
        | EmptyString => String " " EmptyString
        | String c' _ =>
            if Py.isspace c' then collapse_runs s'
            else String " " (collapse_runs s')
        end
      else String c (collapse_runs s')
  end.

(** A trimmed line is dropped when empty or when it begins with [#],
    [//], [/*] or [*]. *)
Definition dropped (trimmed : string) : bool :=
  match trimmed with
  | EmptyString => true
  | _ => existsb (fun p => String.prefix p trimmed) ["#"; "//"; "/*"; "*"]
  end.

Definition normalize (text : string) : string :=
  let trimmed := List.map Py.strip (Py.split_on Dedup.newline text) in
  let surviving := List.filter (fun l => negb (dropped l)) trimmed in
  Py.join (String Dedup.newline "") (List.map collapse_runs surviving).

(** The set of whitespace-delimited tokens of the normalized content. *)
Definition tokens (text : string) : gset string :=
  list_to_set (Py.split (Dedup._normalize_content text)).

(** Jaccard similarity of two token sets. *)
Definition jaccard (A B : gset string) : float :=
  if decide (A = ∅ ∧ B = ∅) then 1%float
  else if decide (size (A ∪ B) = 0%nat) then 0%float
       else truediv (size (A ∩ B)) (size (A ∪ B)).

End Spec.

(** Whether a text begins with whitespace. *)
Definition head_space (s : string) : bool :=
  match s with
  | EmptyString => false
  | String c _ => Py.isspace c
  end.

(** ** Sequences of registrations *)

(** One call of [register_gene], with the clock readings made during it. *)
Record Call : Type := mkCall {
  call_clock : nat -> Timestamp;
  call_gene : Dedup.GeneData;
  call_gene_id : string;
  call_file_path : string
}.

(** The database after a call: the one the call commits, or the same
    database when the call raises before its commit. *)
Definition apply_call (db : Dedup.DB) (c : Call) : Dedup.DB :=
  match Dedup.register_gene (call_clock c) db (call_gene c)
                            (call_gene_id c) (call_file_path c) with
  | inr (db', _) => db'
  | inl _ => db
  end.

Definition run (db : Dedup.DB) (calls : list Call) : Dedup.DB :=
  fold_left apply_call calls db.

(** The path list after [file_path] has been added if absent. *)
Definition add_path (file_path : string) (paths : list string) : list string :=
  if decide (file_path ∈ paths) then paths else paths ++ [file_path].

(** The rows of the ledger that do not belong to [gene_id]. *)
Definition other_rows (gene_id : string) (rows : list Dedup.EvolutionRecord)
  : list Dedup.EvolutionRecord :=
  List.filter (fun r => negb (String.eqb (Dedup.gene_id r) gene_id)) rows.

(** The row written when the fingerprint is new. *)
Definition created_row (clk : nat -> Timestamp) (gene_data : Dedup.GeneData)
  (gene_id file_path : string) : Dedup.ContentHashRecord :=
  Dedup.mkHashRow (clk 0%nat) (clk 1%nat) 1 gene_id [file_path]
    [("complexity", PInt (default 0%Z (Dedup.complexity gene_data)))].

Definition creation_record (clk : nat -> Timestamp) (gene_data : Dedup.GeneData)
  (gene_id file_path : string) : Dedup.EvolutionRecord :=
  Dedup.mkEvolution gene_id (Dedup.hash_of gene_data) None
    "creation" 1%float (clk 2%nat)
    [("file", PStr file_path);
     ("size", PInt (Py.len (Dedup.content gene_data)))].

(** The row left when the fingerprint exists. *)
Definition updated_row (clk : nat -> Timestamp) (existing : Dedup.ContentHashRecord)
  (file_path : string) : Dedup.ContentHashRecord :=
  Dedup.mkHashRow (Dedup.first_seen existing) (clk 0%nat)
    (Dedup.occurrence_count existing + 1)
    (Dedup.representative_gene_id existing)
    (add_path file_path (Dedup.file_paths existing)) (Dedup.metadata existing).

Definition duplication_record (clk : nat -> Timestamp) (existing : Dedup.ContentHashRecord)
  (gene_data : Dedup.GeneData) (gene_id file_path : string) : Dedup.EvolutionRecord :=
  Dedup.mkEvolution gene_id (Dedup.hash_of gene_data)
    (Some (Dedup.representative_gene_id existing))
    "duplication" lit_0_95 (clk 1%nat)
    [("original_file", PStr (List.hd file_path (Dedup.file_paths existing)));
     ("duplicate_file", PStr file_path)].

(** What may change in a row of [content_hashes]: the counter, the
    time last seen and the path list, which only grow. *)
Definition row_extends (row row' : Dedup.ContentHashRecord) : Prop :=
  Dedup.first_seen row' = Dedup.first_seen row
  /\ Dedup.representative_gene_id row' = Dedup.representative_gene_id row
  /\ Dedup.metadata row' = Dedup.metadata row
  /\ (Dedup.occurrence_count row <= Dedup.occurrence_count row')%Z
  /\ Dedup.file_paths row `prefix_of` Dedup.file_paths row'.

(** The rows of the ledger whose gene id is not among [ids]. *)
Definition kept_rows (ids : list string) (rows : list Dedup.EvolutionRecord)
  : list Dedup.EvolutionRecord :=
  List.filter (fun r => bool_decide (Dedup.gene_id r ∉ ids)) rows.

(** The dictionary a call returns and the database it commits, if any. *)
Definition returned (r : Exn + Dedup.DB * Dict) : option Dict :=
  match r with inr (_, d) => Some d | inl _ => None end.

Definition committed (r : Exn + Dedup.DB * Dict) : option Dedup.DB :=
  match r with inr (db, _) => Some db | inl _ => None end.

(** A fixed clock, for examples. *)
Definition clock_at (t : Timestamp) : nat -> Timestamp := fun _ => t.

(** A gene with the given content, of type [function] and name [f]. *)
Definition gene_of (text : string) : Dedup.GeneData :=
  Dedup.mkGene text "function" "f" None.

(** A text made of the given lines. *)
Definition text_of_lines (lines : list string) : string :=
  Py.join (String Dedup.newline "") lines.

(** ** Reconstruction: order and examples *)

(** [a] comes before [b] in [ORDER BY created_at DESC]. *)
Definition newer_first (a b : Reconstruction.GeneRow) : Prop :=
  (Reconstruction.created_at b <= Reconstruction.created_at a)%Z.

(** The stored content of a function gene and of a full-file gene. *)
Definition function_json (code : string) : Reconstruction.Json :=
  Reconstruction.JObject (dict [("type", PStr "function"); ("code", PStr code)]).

Definition full_file_json (text : string) : Reconstruction.Json :=
  Reconstruction.JObject (dict [("type", PStr "full_file"); ("content", PStr text)]).

(** A table holding, out of order and among rows of another file, the
    genes [G1] at 1, [F1] at 2 and [G2] at 3 of [a.js]. *)
Definition genes_table : list Reconstruction.GeneRow :=
  [Reconstruction.mkRow "X1" "b.js" 5 (function_json "other()");
   Reconstruction.mkRow "G2" "a.js" 3 (function_json "g2()");
   Reconstruction.mkRow "G1" "a.js" 1 (function_json "g1()");
   Reconstruction.mkRow "X2" "b.js" 0 (full_file_json "b");
   Reconstruction.mkRow "F1" "a.js" 2 (full_file_json "whole file")].

(** The gene of the end-to-end scenario and the store after its first
    registration as [G-1] in [a.js]. *)
Definition sum_gene : Dedup.GeneData :=
  Dedup.mkGene "function sum(a,b){return a+b;}" "function" "sum" None.

Definition db_one : Dedup.DB :=
  Dedup.mkDB
    {[ Dedup.hash_of sum_gene := created_row (clock_at "t0") sum_gene "G-1" "a.js" ]}
    [creation_record (clock_at "t0") sum_gene "G-1" "a.js"].

(** The store after [G-1] in [a.js] has been submitted a second time. *)
Definition db_two : Dedup.DB :=
  Dedup.mkDB
    {[ Dedup.hash_of sum_gene :=
         updated_row (clock_at "t0")
                     (created_row (clock_at "t0") sum_gene "G-1" "a.js") "a.js" ]}
    [duplication_record (clock_at "t0")
                        (created_row (clock_at "t0") sum_gene "G-1" "a.js")
                        sum_gene "G-1" "a.js"].

(** Three submissions of the same fragment, up to layout and case of the
    name, under three gene ids. *)
Definition three_calls : list Call :=
  [mkCall (clock_at "t0") sum_gene "G-1" "a.js";
   mkCall (clock_at "t1")
          (Dedup.mkGene " function   sum(a,b){return a+b;} " "function" "SUM" None)
          "G-2" "b.js";
   mkCall (clock_at "t2") sum_gene "G-3" "a.js"].

(** The three ways a call can go. *)
Inductive call_outcome (db : Dedup.DB) (c : Call) : Dedup.DB -> Prop :=
| call_created :
    Dedup.content_hashes db !! Dedup.hash_of (call_gene c) = None ->
    call_gene_id c ∉ Dedup.gene_id <$> Dedup.gene_evolution db ->
    call_outcome db c
      (Dedup.mkDB
         (<[Dedup.hash_of (call_gene c) :=
              created_row (call_clock c) (call_gene c) (call_gene_id c)
                          (call_file_path c)]>
            (Dedup.content_hashes db))
         (Dedup.gene_evolution db
          ++ [creation_record (call_clock c) (call_gene c) (call_gene_id c)
                              (call_file_path c)]))
| call_linked existing :
    Dedup.content_hashes db !! Dedup.hash_of (call_gene c) = Some existing ->
    call_outcome db c
      (Dedup.mkDB
         (<[Dedup.hash_of (call_gene c) :=
              updated_row (call_clock c) existing (call_file_path c)]>
            (Dedup.content_hashes db))
         (other_rows (call_gene_id c) (Dedup.gene_evolution db)
          ++ [duplication_record (call_clock c) existing (call_gene c)
                                 (call_gene_id c) (call_file_path c)]))
| call_raised :
    Dedup.content_hashes db !! Dedup.hash_of (call_gene c) = None ->
    call_gene_id c ∈ Dedup.gene_id <$> Dedup.gene_evolution db ->
    call_outcome db c db.

(** ** Normalised lines *)

(** Whether every character of a text satisfies [P]. *)
Fixpoint all_chars (P : ascii -> bool) (s : string) : bool :=
  match s with
  | EmptyString => true
  | String c s' => P c && all_chars P s'
  end.

Definition no_newline (l : string) : bool :=
  all_chars (fun c => negb (Ascii.eqb c Dedup.newline)) l.

(** A line as [_normalize_content] leaves it: the test of the loop does
    not skip it, [strip] and [' '.join(line.split())] leave it as it is,
    and it holds no newline. *)
Definition clean_line (l : string) : Prop :=
  (String.eqb l "" || Py.startswith_any l Dedup.comment_prefixes) = false
  /\ Py.strip l = l
  /\ Py.join " " (Py.split l) = l
  /\ no_newline l = true.

(** The same, by the normal form of [Spec]. *)
Definition tidy_line (l : string) : Prop :=
  Spec.dropped l = false
  /\ Py.strip l = l
  /\ Spec.collapse_runs l = l
  /\ no_newline l = true.

(** ** Stores reached by registrations *)

(** The number of calls of a sequence that return. *)
Fixpoint returned_calls (db : Dedup.DB) (calls : list Call) : nat :=
  match calls with
  | [] => 0
  | c :: calls' =>
      (match Dedup.register_gene (call_clock c) db (call_gene c) (call_gene_id c)
                                 (call_file_path c) with
       | inr _ => 1
       | inl _ => 0
       end + returned_calls (apply_call db c) calls')%nat
  end.

(** What every store reached by [register_gene] satisfies. *)
Record consistent (db : Dedup.DB) : Prop := mkConsistent {
  counted :
    forall h row, Dedup.content_hashes db !! h = Some row ->
    (1 <= Dedup.occurrence_count row)%Z;
  paths_distinct :
    forall h row, Dedup.content_hashes db !! h = Some row ->
    Dedup.file_paths row <> [] /\ NoDup (Dedup.file_paths row);
  representative_recorded :
    forall h row, Dedup.content_hashes db !! h = Some row ->
    Dedup.representative_gene_id row ∈ Dedup.gene_id <$> Dedup.gene_evolution db;
  ids_distinct : NoDup (Dedup.gene_id <$> Dedup.gene_evolution db);
  records_linked :
    forall e, e ∈ Dedup.gene_evolution db ->
    exists row,
      Dedup.content_hashes db !! Dedup.content_hash e = Some row
      /\ Dedup.representative_gene_id row
         = default (Dedup.gene_id e) (Dedup.parent_gene_id e)
}.

(** The orders of the three sorted answers. *)
Definition by_timestamp (a b : Dedup.EvolutionRecord) : Prop :=
  String.le (Dedup.timestamp a) (Dedup.timestamp b).

Definition more_frequent (a b : Dedup.ContentHashRecord) : Prop :=
  (Dedup.occurrence_count b <= Dedup.occurrence_count a)%Z.

Definition last_updated_first (a b : Reconstruction.FileInfo) : Prop :=
  (Reconstruction.info_last_update b <= Reconstruction.info_last_update a)%Z.

(** ** The loop of [reconstruct_file] *)

(** A gene after which the loop goes on. *)
Definition goes_on (g : Reconstruction.GeneRow) : Prop :=
  match Reconstruction.turn g with
  | Reconstruction.Appends _ | Reconstruction.Passes => True
  | _ => False
  end.

(** The codes of the function genes among [genes]. *)
Definition codes (genes : list Reconstruction.GeneRow) : list string :=
  omap (fun g => match Reconstruction.turn g with
                 | Reconstruction.Appends code => Some code
                 | _ => None
                 end) genes.

Definition two_newlines : string := String Dedup.newline (String Dedup.newline "").

(** [acc] followed by each code and a blank line. *)
Fixpoint gathered (acc : string) (l : list string) : string :=
  match l with
  | [] => acc
  | code :: l' => gathered (acc ++ code ++ two_newlines) l'
  end.

(** ** The version filter *)




(** ** The files on record *)

(** What an element of [available_files] says of the table: the number of
    rows of its path, and the latest instant among them. *)
Definition describes (table : list Reconstruction.GeneRow)
  (f : Reconstruction.FileInfo) : Prop :=
  Reconstruction.info_gene_count f
  = Z.of_nat (List.length
                (List.filter (Reconstruction.same_path (Reconstruction.info_file_path f))
                             table))
  /\ (exists g, g ∈ table
                /\ Reconstruction.file_path g = Reconstruction.info_file_path f
                /\ Reconstruction.created_at g = Reconstruction.info_last_update f)
  /\ (forall g, g ∈ table ->
                Reconstruction.file_path g = Reconstruction.info_file_path f ->
                (Reconstruction.created_at g <= Reconstruction.info_last_update f)%Z).

(** Three genes of [c.js], none of them a full file, and two genes of
    [d.js], the newer one with a content that does not decode. *)
Definition functions_table : list Reconstruction.GeneRow :=
  [Reconstruction.mkRow "H1" "c.js" 1 (function_json "h1()");
   Reconstruction.mkRow "S1" "c.js" 2
     (Reconstruction.JObject (dict [("type", PStr "style")]));
   Reconstruction.mkRow "H2" "c.js" 3 (function_json "h2()")].

Definition broken_table : list Reconstruction.GeneRow :=
  [Reconstruction.mkRow "F1" "d.js" 1 (full_file_json "whole file");
   Reconstruction.mkRow "B1" "d.js" 2 Reconstruction.JInvalid].

(** The answer for the latest version of [a.js] in [genes_table]. *)
Definition whole_file_answer : Reconstruction.Reconstructed :=
  Reconstruction.mkReconstructed "a.js" "latest" "whole file" 1 ["G2"; "F1"; "G1"]
    (Py.take 8 (SHA256.hexdigest (Py.encode "whole file"))).

(** * Properties *)

(** ** The digest agrees with [hashlib] on test vectors *)

Example sha256_empty :
  SHA256.hexdigest (Py.encode "")
  = "e3b0c44298fc1c149afbf4c8996fb92427ae41e4649b934ca495991b7852b855".
Proof. vm_compute. reflexivity. Qed.

Example sha256_abc :
  SHA256.hexdigest (Py.encode "abc")
  = "ba7816bf8f01cfea414140de5dae2223b00361a396177a9cb410ff61f20015ad".
Proof. vm_compute. reflexivity. Qed.

Example sha256_two_blocks :
  SHA256.hexdigest (Py.encode "xxxxxxxxxxxxxxxxxxxxxxxxxxxxxxxxxxxxxxxxxxxxxxxxxxxxxxxxxxxxxxxxxxxxxx")
  = "c71bd109227e23434ecf71fd0a344a209136c79ae5a0bda2b5ca442d699a3cd9".
Proof. vm_compute. reflexivity. Qed.

(** ** Strings *)

Section StringFacts.

Lemma rstrip_idem (s : string) : Py.rstrip (Py.rstrip s) = Py.rstrip s.
Proof.
  induction s as [|c s IH]; simpl; [reflexivity|].
  destruct (Py.rstrip s) as [|d r] eqn:E.
  - destruct (Py.isspace c) eqn:Hc; simpl; [reflexivity|].
    now rewrite Hc.
  - change (Py.rstrip (String c (String d r))) with
      (match Py.rstrip (String d r) with
       | EmptyString => if Py.isspace c then EmptyString else String c EmptyString
       | r' => String c r'
       end).
    now rewrite IH.
Qed.

Lemma lstrip_head (s : string) : head_space (Py.lstrip s) = false.
Proof.
  induction s as [|c s IH]; simpl; [reflexivity|].
  destruct (Py.isspace c) eqn:Hc; [exact IH|]. simpl. exact Hc.
Qed.

Lemma rstrip_head (s : string) :
  head_space s = false -> head_space (Py.rstrip s) = false.
Proof.
  destruct s as [|c s]; simpl; [reflexivity|]. intros Hc.
  destruct (Py.rstrip s); [rewrite Hc|]; simpl; exact Hc.
Qed.

Lemma strip_head (s : string) : head_space (Py.strip s) = false.
Proof. apply rstrip_head, lstrip_head. Qed.

Lemma strip_rstrip (s : string) : Py.rstrip (Py.strip s) = Py.strip s.
Proof. apply rstrip_idem. Qed.

(** A text without trailing whitespace has a token unless it is empty. *)
Lemma split_nil_rstrip (s : string) :
  Py.rstrip s = s -> Py.split s = [] -> s = EmptyString.
Proof.
  induction s as [|c s IH]; [reflexivity|].
  intros Hr Hn. exfalso.
  cbn [Py.rstrip] in Hr.
  destruct (Py.rstrip s) as [|d r] eqn:E.
  - destruct (Py.isspace c) eqn:Hc; [discriminate|].
    injection Hr as <-. cbn in Hn. rewrite Hc in Hn. discriminate.
  - injection Hr as Hs. cbn [Py.split] in Hn.
    destruct (Py.isspace c) eqn:Hc.
    + rewrite (IH Hs Hn) in Hs. discriminate.
    + subst s. destruct (Py.isspace d); [discriminate|].
      destruct (Py.split (String d r)); discriminate.
Qed.

Lemma join_cons (sep w : string) (ws : list string) :
  ws <> [] -> Py.join sep (w :: ws) = (w ++ sep ++ Py.join sep ws)%string.
Proof. destruct ws; [congruence|reflexivity]. Qed.

Lemma join_cons_char (sep : string) (c : ascii) (w : string) (ws : list string) :
  Py.join sep (String c w :: ws) = String c (Py.join sep (w :: ws)).
Proof. destruct ws; reflexivity. Qed.

Lemma rstrip_tail (c : ascii) (s : string) :
  Py.rstrip (String c s) = String c s -> Py.rstrip s = s.
Proof.
  cbn [Py.rstrip]. destruct (Py.rstrip s) eqn:E.
  - destruct (Py.isspace c); [discriminate|]. now intros [= <-].
  - now intros [= <-].
Qed.

Lemma collapse_join_split (s : string) :
  Py.rstrip s = s ->
  Spec.collapse_runs s
  = ((if head_space s then " " else "") ++ Py.join " " (Py.split s))%string.
Proof.
  induction s as [|c s IH]; [reflexivity|].
  intros Hr. pose proof (rstrip_tail _ _ Hr) as Hr'.
  specialize (IH Hr').
  cbn [Spec.collapse_runs Py.split head_space].
  destruct (Py.isspace c) eqn:Hc.
  - destruct s as [|d s].
    + cbn in Hr. rewrite Hc in Hr. discriminate.
    + cbn [head_space] in IH. destruct (Py.isspace d) eqn:Hd.
      * exact IH.
      * rewrite IH. reflexivity.
  - destruct s as [|d s]; [reflexivity|].
    cbn [head_space] in IH. destruct (Py.isspace d) eqn:Hd.
    + rewrite IH. rewrite join_cons; [reflexivity|].
      intros Hn. now pose proof (split_nil_rstrip _ Hr' Hn).
    + rewrite IH. destruct (Py.split (String d s)) as [|w ws] eqn:Es.
      * cbn in Es. rewrite Hd in Es. destruct s; [discriminate|].
        destruct (Py.isspace a); [discriminate|]. destruct (Py.split (String a s)); discriminate.
      * now rewrite join_cons_char.
Qed.

Lemma prefix_startswith (p s : string) : String.prefix p s = Py.startswith s p.
Proof.
  revert s. induction p as [|a p IH]; intros [|b s]; cbn; try reflexivity.
  destruct (ascii_dec a b) as [->|Hne].
  - now rewrite Ascii.eqb_refl, IH.
  - apply Ascii.eqb_neq in Hne. now rewrite Hne.
Qed.

Lemma dropped_agrees (l : string) :
  (String.eqb l "" || Py.startswith_any l Dedup.comment_prefixes) = Spec.dropped l.
Proof.
  destruct l as [|c l]; [reflexivity|].
  unfold Spec.dropped, Py.startswith_any, Dedup.comment_prefixes.
  cbn [String.eqb orb existsb]. now rewrite !prefix_startswith.
Qed.

Lemma normalize_loop (lines acc : list string) :
  fold_left Dedup.normalize_line lines acc
  = acc ++ List.map Spec.collapse_runs
             (List.filter (fun l => negb (Spec.dropped l)) (List.map Py.strip lines)).
Proof.
  revert acc. induction lines as [|l lines IH]; intros acc; cbn [fold_left List.map List.filter].
  - now rewrite app_nil_r.
  - rewrite IH. unfold Dedup.normalize_line. rewrite dropped_agrees.
    destruct (Spec.dropped (Py.strip l)); cbn [negb]; [reflexivity|].
    rewrite <- app_assoc. cbn [List.map app]. do 3 f_equal.
    rewrite collapse_join_split by apply strip_rstrip.
    now rewrite strip_head.
Qed.

(** C8.  [_normalize_content] splits the text into lines, trims each
    line, drops the lines that are empty after trimming or whose trimmed
    form begins with [#], [//], [/*] or [*] (a line of code beginning with
    [*] included), collapses every run of whitespace left in a line to
    one space and joins the surviving lines, in order, with newlines. *)
Theorem normalize_content_spec (text : string) :
  Dedup._normalize_content text = Spec.normalize text.
Proof.
  unfold Dedup._normalize_content, Spec.normalize. now rewrite normalize_loop.
Qed.

(** A line of code that begins with [*] is dropped with the comments. *)
Example normalize_drops_star_line :
  Dedup._normalize_content
    (text_of_lines ["  total = a"; "    * b   # product"; ""; "// done"; "return   total "])
  = text_of_lines ["total = a"; "return total"].
Proof. reflexivity. Qed.

End StringFacts.

(** ** Floats and the two thresholds *)

Import Dedup.

Section Floats.

Lemma SFcompare_finite_pos (m1 m2 : positive) (e1 e2 : Z) :
  SFcompare (S754_finite false m1 e1) (S754_finite false m2 e2)
  = option_map CompOpp (SFcompare (S754_finite false m2 e2) (S754_finite false m1 e1)).
Proof.
  cbn. rewrite (Z.compare_antisym e1 e2).
  destruct (e1 ?= e2)%Z; cbn; try reflexivity.
  rewrite (Pos.compare_cont_antisym m2 m1 Eq). reflexivity.
Qed.

Lemma lit_0_8_spec : Prim2SF lit_0_8 = S754_finite false 7205759403792794 (-53).
Proof. vm_compute. reflexivity. Qed.

(** Above 0.3 and not above 0.8 means at most 0.8: the value is a number. *)
Lemma between_thresholds (s : float) :
  (lit_0_3 <? s)%float = true ->
  (lit_0_8 <? s)%float = false ->
  (s <=? lit_0_8)%float = true.
Proof.
  rewrite !ltb_spec, leb_spec.
  destruct (Prim2SF s) as [b|b| |b m e].
  - vm_compute. congruence.
  - destruct b; vm_compute; congruence.
  - vm_compute. congruence.
  - destruct b; [vm_compute; congruence|].
    intros _. unfold SFltb, SFleb. rewrite lit_0_8_spec.
    rewrite (SFcompare_finite_pos m).
    destruct (SFcompare _ (S754_finite false m e)) as [[]|] eqn:E; cbn.
    all: try congruence.
    cbn in E. discriminate.
Qed.

Lemma leb_not_ltb (s : float) :
  (s <=? lit_0_8)%float = true -> (lit_0_8 <? s)%float = false.
Proof.
  rewrite ltb_spec, leb_spec, lit_0_8_spec. unfold SFltb, SFleb.
  destruct (Prim2SF s) as [b|b| |b m e].
  - vm_compute. congruence.
  - destruct b; vm_compute; congruence.
  - vm_compute. congruence.
  - destruct b; [vm_compute; congruence|].
    rewrite (SFcompare_finite_pos m).
    destruct (SFcompare _ (S754_finite false m e)) as [[]|]; cbn; congruence.
Qed.

End Floats.

(** ** Classification *)

Section Similarity.

Lemma calculate_similarity_jaccard (content1 content2 : string) :
  _calculate_similarity content1 content2
  = Spec.jaccard (Spec.tokens content1) (Spec.tokens content2).
Proof.
  unfold _calculate_similarity, Spec.jaccard, Spec.tokens.
  set (A := list_to_set _). set (B := list_to_set _).
  destruct (decide (A = ∅ ∧ B = ∅)) as [[HA HB]|Hn].
  - now rewrite !bool_decide_eq_true_2.
  - replace (bool_decide (A = ∅) && bool_decide (B = ∅)) with false.
    2:{ symmetry. apply andb_false_iff.
        destruct (decide (A = ∅)); [right|left]; apply bool_decide_eq_false_2; tauto. }
    destruct (decide (size (A ∪ B) = 0%nat)) as [->|Hs]; [reflexivity|].
    destruct (size (A ∪ B)); [congruence|reflexivity].
Qed.

(** C3.  [detect_mutations] answers [no_change] with confidence 1.0 when
    the two fingerprints are equal; otherwise, with [s] the Jaccard
    similarity of the token sets of the two normalized contents, it
    answers [mutation] with confidence [s] when [s > 0.8],
    [major_refactor] with confidence [s] when [0.3 < s <= 0.8], and
    [replacement] with confidence [1 - s] in the remaining case. *)
Theorem detect_mutations_classifies (old_gene new_gene : GeneData) :
  let s := Spec.jaccard (Spec.tokens (content old_gene)) (Spec.tokens (content new_gene)) in
  let r := detect_mutations old_gene new_gene in
  (hash_of old_gene = hash_of new_gene ->
   r = dict [("type", PStr "no_change"); ("confidence", PFloat 1)])
  /\ (hash_of old_gene <> hash_of new_gene ->
      ((lit_0_8 <? s)%float = true ->
       r !! "type" = Some (PStr "mutation") /\ r !! "confidence" = Some (PFloat s))
      /\ ((lit_0_3 <? s)%float = true -> (s <=? lit_0_8)%float = true ->
          r !! "type" = Some (PStr "major_refactor") /\ r !! "confidence" = Some (PFloat s))
      /\ ((lit_0_8 <? s)%float = false ->
          ((lit_0_3 <? s) && (s <=? lit_0_8))%float = false ->
          r !! "type" = Some (PStr "replacement")
          /\ r !! "confidence" = Some (PFloat (1 - s)%float))).
Proof.
  intros s r. subst r. unfold detect_mutations.
  rewrite calculate_similarity_jaccard. fold s. split.
  - intros ->. now rewrite String.eqb_refl.
  - intros Hne. apply String.eqb_neq in Hne. rewrite Hne.
    split; [|split].
    + intros ->. split; reflexivity.
    + intros H3 H8. rewrite (leb_not_ltb _ H8), H3. split; reflexivity.
    + intros H8 Hmid. rewrite H8.
      destruct (lit_0_3 <? s)%float eqn:H3.
      * rewrite (between_thresholds _ H3 H8) in Hmid. discriminate.
      * split; reflexivity.
Qed.

End Similarity.

Ltac by_compute := vm_compute; reflexivity.
Ltac hashes_differ := apply String.eqb_neq; vm_compute; reflexivity.

(** Witness of C3: one pair of genes for each of the four answers. *)
Lemma detect_mutations_classifies_witness :
  detect_mutations (gene_of "a b c d e f") (gene_of "a b c d e f g") !! "type"
  = Some (PStr "mutation")
  /\ detect_mutations (gene_of "a b c d") (gene_of "a b c d e") !! "type"
     = Some (PStr "major_refactor")
  /\ detect_mutations (gene_of "a b c") (gene_of "x y z") !! "type"
     = Some (PStr "replacement")
  /\ detect_mutations (gene_of "a  b") (gene_of "a b")
     = dict [("type", PStr "no_change"); ("confidence", PFloat 1)].
Proof.
  split; [|split; [|split]].
  - refine (proj1 (proj1 (proj2 (detect_mutations_classifies
              (gene_of "a b c d e f") (gene_of "a b c d e f g")) _) _));
      [hashes_differ | by_compute].
  - refine (proj1 (proj1 (proj2 (proj2 (detect_mutations_classifies
              (gene_of "a b c d") (gene_of "a b c d e")) _)) _ _));
      [hashes_differ | by_compute | by_compute].
  - refine (proj1 (proj2 (proj2 (proj2 (detect_mutations_classifies
              (gene_of "a b c") (gene_of "x y z")) _)) _ _));
      [hashes_differ | by_compute | by_compute].
  - refine (proj1 (detect_mutations_classifies (gene_of "a  b") (gene_of "a b")) _).
    by_compute.
Defined.

(** C4 as stated fails: 4 shared tokens out of 5 give a similarity of
    exactly 0.8 and the answer is not [mutation]; 3 out of 10 give exactly
    0.3 and the answer is not [major_refactor]. *)
Lemma closed_thresholds_counterexample :
  let old4 := gene_of "a b c d" in
  let new5 := gene_of "a b c d e" in
  let old3 := gene_of "a b c" in
  let new10 := gene_of "a b c d e f g h i j" in
  (hash_of old4 <> hash_of new5
   /\ size (Spec.tokens (content old4) ∩ Spec.tokens (content new5)) = 4%nat
   /\ size (Spec.tokens (content old4) ∪ Spec.tokens (content new5)) = 5%nat
   /\ Spec.jaccard (Spec.tokens (content old4)) (Spec.tokens (content new5)) = lit_0_8
   /\ detect_mutations old4 new5 !! "type" <> Some (PStr "mutation"))
  /\ (hash_of old3 <> hash_of new10
      /\ size (Spec.tokens (content old3) ∩ Spec.tokens (content new10)) = 3%nat
      /\ size (Spec.tokens (content old3) ∪ Spec.tokens (content new10)) = 10%nat
      /\ Spec.jaccard (Spec.tokens (content old3)) (Spec.tokens (content new10)) = lit_0_3
      /\ detect_mutations old3 new10 !! "type" <> Some (PStr "major_refactor")).
Proof.
  cbv zeta.
  split; (split; [hashes_differ|split; [by_compute|split; [by_compute|split; [by_compute|]]]]).
  all: intros H; vm_compute in H; discriminate H.
Qed.

(** C4, amended.  The two comparisons are strict: for two genes with
    distinct fingerprints, a similarity of exactly 0.8 is answered by
    [major_refactor] with confidence 0.8, and a similarity of exactly 0.3
    by [replacement] with confidence [1 - 0.3]. *)
Theorem detect_mutations_boundaries (old_gene new_gene : GeneData) :
  hash_of old_gene <> hash_of new_gene ->
  let s := Spec.jaccard (Spec.tokens (content old_gene)) (Spec.tokens (content new_gene)) in
  let r := detect_mutations old_gene new_gene in
  (s = lit_0_8 ->
   r !! "type" = Some (PStr "major_refactor") /\ r !! "confidence" = Some (PFloat lit_0_8))
  /\ (s = lit_0_3 ->
      r !! "type" = Some (PStr "replacement")
      /\ r !! "confidence" = Some (PFloat (1 - lit_0_3)%float)).
Proof.
  intros Hne s r. subst r. unfold detect_mutations.
  apply String.eqb_neq in Hne. rewrite Hne, calculate_similarity_jaccard. fold s.
  split; intros ->; split; reflexivity.
Qed.

(** Witness of C4: the token sets 4/5 and 3/10 of the claim. *)
Lemma detect_mutations_boundaries_witness :
  (detect_mutations (gene_of "a b c d") (gene_of "a b c d e") !! "type"
   = Some (PStr "major_refactor")
   /\ detect_mutations (gene_of "a b c d") (gene_of "a b c d e") !! "confidence"
      = Some (PFloat lit_0_8))
  /\ (detect_mutations (gene_of "a b c") (gene_of "a b c d e f g h i j") !! "type"
      = Some (PStr "replacement")
      /\ detect_mutations (gene_of "a b c") (gene_of "a b c d e f g h i j") !! "confidence"
         = Some (PFloat (1 - lit_0_3)%float)).
Proof.
  split.
  - refine (proj1 (detect_mutations_boundaries
                     (gene_of "a b c d") (gene_of "a b c d e") _) _);
      [hashes_differ | by_compute].
  - refine (proj2 (detect_mutations_boundaries
                     (gene_of "a b c") (gene_of "a b c d e f g h i j") _) _);
      [hashes_differ | by_compute].
Defined.


(** ** The fingerprint *)

Section Digest.

Lemma round_length (st : list Z) (kw : Z * Z) :
  List.length st = 8%nat -> List.length (SHA256.round st kw) = 8%nat.
Proof.
  intros H. do 9 (destruct st as [|? st]; try discriminate H). reflexivity.
Qed.

Lemma rounds_length (l : list (Z * Z)) (st : list Z) :
  List.length st = 8%nat -> List.length (fold_left SHA256.round l st) = 8%nat.
Proof.
  revert st. induction l as [|kw l IH]; intros st H; cbn [fold_left]; [exact H|].
  apply IH, round_length, H.
Qed.

Lemma compress_length (h block : list Z) :
  List.length h = 8%nat -> List.length (SHA256.compress h block) = 8%nat.
Proof.
  intros H. unfold SHA256.compress.
  rewrite List.length_map, List.length_combine, rounds_length by exact H.
  rewrite H. reflexivity.
Qed.

Lemma digest_length (msg : list Z) : List.length (SHA256.digest msg) = 8%nat.
Proof.
  unfold SHA256.digest.
  set (bl := SHA256.blocks _ _). clearbody bl.
  assert (H : List.length SHA256.H0 = 8%nat) by reflexivity.
  revert H. generalize SHA256.H0. induction bl as [|b bl IH]; intros h H; cbn [fold_left].
  - exact H.
  - apply IH, compress_length, H.
Qed.

Lemma hex_words_length (ws : list Z) :
  List.length (List.concat (List.map SHA256.hex_word ws)) = (8 * List.length ws)%nat.
Proof.
  induction ws as [|w ws IH]; [reflexivity|].
  cbn [List.map List.concat]. rewrite List.length_app, IH.
  unfold SHA256.hex_word. rewrite List.length_map. cbn. lia.
Qed.

Lemma string_of_list_length (l : list ascii) :
  String.length (string_of_list_ascii l) = List.length l.
Proof. induction l as [|c l IH]; cbn; [reflexivity|now rewrite IH]. Qed.

(** The digest is printed on 64 hexadecimal digits: 256 bits. *)
Lemma hexdigest_length (msg : list Z) : String.length (SHA256.hexdigest msg) = 64%nat.
Proof.
  unfold SHA256.hexdigest.
  now rewrite string_of_list_length, hex_words_length, digest_length.
Qed.

End Digest.

(** C9.  The fingerprint is a function of the triple (normalized content,
    type, lower-case name): two genes that agree on the triple receive
    the same fingerprint, which is the SHA-256 digest, printed on 64
    hexadecimal digits (256 bits), of exactly the composite string
    [normalize(content) + "::" + type + "::" + lower(name)]. *)
Theorem content_hash_deterministic (c1 t1 n1 c2 t2 n2 : string) :
  _normalize_content c1 = _normalize_content c2 ->
  t1 = t2 ->
  Py.lower n1 = Py.lower n2 ->
  calculate_content_hash c1 t1 n1 = calculate_content_hash c2 t2 n2
  /\ calculate_content_hash c1 t1 n1
     = SHA256.hexdigest
         (Py.encode (_normalize_content c1 ++ "::" ++ t1 ++ "::" ++ Py.lower n1)%string)
  /\ String.length (calculate_content_hash c1 t1 n1) = 64%nat.
Proof.
  intros Hc Ht Hn. unfold calculate_content_hash, composite.
  rewrite Hc, Ht, Hn. repeat split. apply hexdigest_length.
Qed.

Lemma content_hash_deterministic_witness :
  calculate_content_hash (text_of_lines ["x =  a+b"; ""]) "function" "Sum"
  = calculate_content_hash (text_of_lines ["# adds"; "  x = a+b"]) "function" "sUM".
Proof.
  apply (content_hash_deterministic
           (text_of_lines ["x =  a+b"; ""]) "function" "Sum"
           (text_of_lines ["# adds"; "  x = a+b"]) "function" "sUM");
    reflexivity.
Defined.

(** ** The store *)

Section Store.

Lemma existsb_eqb_elem_of (x : string) (l : list string) :
  existsb (String.eqb x) l = bool_decide (x ∈ l).
Proof.
  induction l as [|y l IH]; cbn [existsb].
  - symmetry. apply bool_decide_eq_false_2. apply not_elem_of_nil.
  - rewrite IH. destruct (String.eqb_spec x y) as [->|Hne]; cbn [orb].
    + symmetry. apply bool_decide_eq_true_2. apply list_elem_of_here.
    + apply bool_decide_ext. rewrite elem_of_cons. tauto.
Qed.

Lemma existing_paths_add_path (file_path : string) (paths : list string) :
  (if existsb (String.eqb file_path) paths then paths else paths ++ [file_path])
  = add_path file_path paths.
Proof.
  rewrite existsb_eqb_elem_of. unfold add_path.
  destruct (decide (file_path ∈ paths)) as [H|H].
  - now rewrite bool_decide_eq_true_2.
  - now rewrite bool_decide_eq_false_2.
Qed.

Lemma add_path_cons (file_path : string) (paths : list string) :
  add_path file_path paths = List.hd file_path paths :: List.tl (add_path file_path paths).
Proof.
  unfold add_path. destruct (decide (file_path ∈ paths)) as [H|H].
  - destruct paths; [now apply not_elem_of_nil in H|reflexivity].
  - destruct paths; reflexivity.
Qed.

Lemma add_path_prefix (file_path : string) (paths : list string) :
  paths `prefix_of` add_path file_path paths.
Proof.
  unfold add_path. destruct (decide _); [reflexivity|]. now exists [file_path].
Qed.

Lemma add_path_elem (file_path : string) (paths : list string) :
  file_path ∈ add_path file_path paths.
Proof.
  unfold add_path. destruct (decide _) as [H|H]; [exact H|].
  apply elem_of_app. right. apply list_elem_of_here.
Qed.

Lemma existsb_gene_id (id : string) (rows : list EvolutionRecord) :
  existsb (fun r => String.eqb (gene_id r) id) rows = bool_decide (id ∈ gene_id <$> rows).
Proof.
  induction rows as [|r rows IH]; cbn [existsb fmap list_fmap].
  - symmetry. apply bool_decide_eq_false_2. apply not_elem_of_nil.
  - rewrite IH. destruct (String.eqb_spec (gene_id r) id) as [<-|Hne]; cbn [orb].
    + symmetry. apply bool_decide_eq_true_2. apply list_elem_of_here.
    + apply bool_decide_ext. rewrite elem_of_cons. split; [tauto|]. intros [E|H]; [congruence|exact H].
Qed.

Lemma other_rows_fresh (id : string) (rows : list EvolutionRecord) :
  id ∉ gene_id <$> rows -> other_rows id rows = rows.
Proof.
  induction rows as [|r rows IH]; [reflexivity|].
  cbn [fmap list_fmap]. rewrite not_elem_of_cons. intros [Hne H].
  unfold other_rows. cbn [List.filter].
  destruct (String.eqb_spec (gene_id r) id) as [E|_]; [congruence|].
  cbn [negb]. f_equal. apply IH, H.
Qed.

Lemma register_gene_new clk db gene_data id file_path :
  content_hashes db !! hash_of gene_data = None ->
  id ∉ gene_id <$> gene_evolution db ->
  register_gene clk db gene_data id file_path
  = inr (mkDB (<[hash_of gene_data := created_row clk gene_data id file_path]>
                 (content_hashes db))
              (gene_evolution db ++ [creation_record clk gene_data id file_path]),
         dict [("is_duplicate", PBool false); ("gene_id", PStr id);
               ("action", PStr "created_new")]).
Proof.
  intros Hh Hid. unfold register_gene. rewrite Hh.
  unfold insert_evolution. cbn [gene_id]. rewrite existsb_gene_id.
  now rewrite bool_decide_eq_false_2.
Qed.

Lemma register_gene_reused_id clk db gene_data id file_path :
  content_hashes db !! hash_of gene_data = None ->
  id ∈ gene_id <$> gene_evolution db ->
  register_gene clk db gene_data id file_path = inl IntegrityError.
Proof.
  intros Hh Hid. unfold register_gene. rewrite Hh.
  unfold insert_evolution. cbn [gene_id]. rewrite existsb_gene_id.
  now rewrite bool_decide_eq_true_2.
Qed.

Lemma register_gene_existing clk db gene_data id file_path existing :
  content_hashes db !! hash_of gene_data = Some existing ->
  register_gene clk db gene_data id file_path
  = inr (mkDB (<[hash_of gene_data := updated_row clk existing file_path]>
                 (content_hashes db))
              (other_rows id (gene_evolution db)
               ++ [duplication_record clk existing gene_data id file_path]),
         dict [("is_duplicate", PBool true);
               ("representative_gene_id", PStr (representative_gene_id existing));
               ("occurrence_count", PInt (occurrence_count existing + 1));
               ("action", PStr "linked_to_existing")]).
Proof.
  intros Hh. unfold register_gene. rewrite Hh.
  rewrite existing_paths_add_path. cbv zeta.
  unfold updated_row, duplication_record, insert_or_replace_evolution, other_rows.
  pose proof (add_path_cons file_path (file_paths existing)) as Hc.
  destruct (add_path file_path (file_paths existing)) as [|o rest]; [discriminate Hc|].
  injection Hc as ->. reflexivity.
Qed.

End Store.

Section Ledger.

#[local] Instance row_extends_refl : Reflexive row_extends.
Proof. intros row. unfold row_extends. repeat split; try reflexivity. Qed.

#[local] Instance row_extends_trans : Transitive row_extends.
Proof.
  intros a b c (F1 & R1 & M1 & C1 & P1) (F2 & R2 & M2 & C2 & P2).
  unfold row_extends. repeat split; try congruence; [lia|].
  now transitivity (file_paths b).
Qed.

Lemma updated_row_extends clk existing file_path :
  row_extends existing (updated_row clk existing file_path).
Proof.
  unfold row_extends, updated_row; cbn. repeat split; [lia|apply add_path_prefix].
Qed.

Lemma apply_call_outcome (db : DB) (c : Call) : call_outcome db c (apply_call db c).
Proof.
  unfold apply_call.
  destruct (content_hashes db !! hash_of (call_gene c)) as [existing|] eqn:Hh.
  - rewrite (register_gene_existing _ _ _ _ _ _ Hh). now constructor.
  - destruct (decide (call_gene_id c ∈ gene_id <$> gene_evolution db)) as [Hid|Hid].
    + rewrite (register_gene_reused_id _ _ _ _ _ Hh Hid). now constructor.
    + rewrite (register_gene_new _ _ _ _ _ Hh Hid). now constructor.
Qed.

Lemma apply_call_rows (db : DB) (c : Call) (h : string) (row : ContentHashRecord) :
  content_hashes db !! h = Some row ->
  exists row', content_hashes (apply_call db c) !! h = Some row' /\ row_extends row row'.
Proof.
  intros Hrow. destruct (apply_call_outcome db c) as [Hh Hid|existing Hh|Hh Hid]; cbn [content_hashes gene_evolution].
  - exists row. split; [|reflexivity].
    rewrite lookup_insert_ne; [exact Hrow|congruence].
  - destruct (decide (hash_of (call_gene c) = h)) as [<-|Hne].
    + rewrite lookup_insert_eq. eexists. split; [reflexivity|].
      replace row with existing by congruence. apply updated_row_extends.
    + exists row. split; [|reflexivity]. now rewrite lookup_insert_ne.
  - exists row. split; [exact Hrow|reflexivity].
Qed.

Lemma run_rows (calls : list Call) (db : DB) (h : string) (row : ContentHashRecord) :
  content_hashes db !! h = Some row ->
  exists row', content_hashes (run db calls) !! h = Some row' /\ row_extends row row'.
Proof.
  revert db row. induction calls as [|c calls IH]; intros db row Hrow.
  - exists row. split; [exact Hrow|reflexivity].
  - destruct (apply_call_rows db c h row Hrow) as (row1 & H1 & E1).
    destruct (IH _ _ H1) as (row2 & H2 & E2).
    exists row2. split; [exact H2|]. now transitivity row1.
Qed.

Lemma kept_rows_app ids rows1 rows2 :
  kept_rows ids (rows1 ++ rows2) = kept_rows ids rows1 ++ kept_rows ids rows2.
Proof. apply List.filter_app. Qed.

Lemma kept_rows_other ids id rows :
  id ∈ ids -> kept_rows ids (other_rows id rows) = kept_rows ids rows.
Proof.
  intros Hid. unfold kept_rows, other_rows.
  induction rows as [|r rows IH]; [reflexivity|]. cbn [List.filter].
  destruct (String.eqb_spec (gene_id r) id) as [E|Hne]; cbn [negb List.filter].
  - rewrite bool_decide_eq_false_2; [exact IH|]. rewrite E. tauto.
  - now rewrite IH.
Qed.

Lemma kept_rows_own ids r : gene_id r ∈ ids -> kept_rows ids [r] = [].
Proof.
  intros H. unfold kept_rows. cbn. rewrite bool_decide_eq_false_2; [reflexivity|tauto].
Qed.

Lemma apply_call_kept (db : DB) (c : Call) (ids : list string) :
  call_gene_id c ∈ ids ->
  kept_rows ids (gene_evolution (apply_call db c)) = kept_rows ids (gene_evolution db).
Proof.
  intros Hid. destruct (apply_call_outcome db c) as [Hh Hf|existing Hh|Hh Hf]; cbn [content_hashes gene_evolution].
  - rewrite kept_rows_app, kept_rows_own by exact Hid. apply app_nil_r.
  - rewrite kept_rows_app, kept_rows_other, kept_rows_own by exact Hid. apply app_nil_r.
  - reflexivity.
Qed.

Lemma run_kept (calls : list Call) (db : DB) (ids : list string) :
  (forall c, c ∈ calls -> call_gene_id c ∈ ids) ->
  kept_rows ids (gene_evolution (run db calls)) = kept_rows ids (gene_evolution db).
Proof.
  revert db. induction calls as [|c calls IH]; intros db Hids; [reflexivity|].
  cbn [run fold_left]. fold (run (apply_call db c) calls).
  rewrite IH.
  - apply apply_call_kept, Hids, list_elem_of_here.
  - intros c' Hc'. apply Hids. now apply list_elem_of_further.
Qed.

Lemma register_gene_apply_call clk db gene_data id file_path db' result :
  register_gene clk db gene_data id file_path = inr (db', result) ->
  apply_call db (mkCall clk gene_data id file_path) = db'.
Proof. unfold apply_call. cbn. now intros ->. Qed.

End Ledger.

(** ** Registration *)

(** C1, amended.  When the fingerprint is not in the store and the gene
    id has no record in the ledger, [register_gene] inserts a row with
    [occurrence_count = 1], [representative_gene_id = gene_id] and the
    single path [file_path], appends a [creation] record without parent
    and with confidence 1.0, and returns [is_duplicate = False], [gene_id]
    and [action = created_new].  When the fingerprint is in the store it
    adds [file_path] to the paths if absent, increments
    [occurrence_count], updates [last_seen], writes at the end of the
    ledger a [duplication] record whose parent is the representative,
    with confidence 0.95, in place of any record of the same gene id, and
    returns [is_duplicate = True], [representative_gene_id],
    [occurrence_count] and [action = linked_to_existing]. *)
Theorem register_gene_spec (clk : nat -> Timestamp) (db : DB)
  (gene_data : GeneData) (id file_path : string) :
  let h := hash_of gene_data in
  (content_hashes db !! h = None ->
   id ∉ gene_id <$> gene_evolution db ->
   register_gene clk db gene_data id file_path
   = inr (mkDB
            (<[h := {| first_seen := clk 0%nat;
                       last_seen := clk 1%nat;
                       occurrence_count := 1;
                       representative_gene_id := id;
                       file_paths := [file_path];
                       metadata :=
                         [("complexity", PInt (default 0%Z (complexity gene_data)))] |}]>
               (content_hashes db))
            (gene_evolution db
             ++ [{| gene_id := id;
                    content_hash := h;
                    parent_gene_id := None;
                    evolution_type := "creation";
                    confidence_score := 1;
                    timestamp := clk 2%nat;
                    evolution_metadata :=
                      [("file", PStr file_path);
                       ("size", PInt (Py.len (content gene_data)))] |}]),
          dict [("is_duplicate", PBool false);
                ("gene_id", PStr id);
                ("action", PStr "created_new")]))
  /\ (forall existing : ContentHashRecord,
      content_hashes db !! h = Some existing ->
      register_gene clk db gene_data id file_path
      = inr (mkDB
               (<[h := {| first_seen := first_seen existing;
                          last_seen := clk 0%nat;
                          occurrence_count := occurrence_count existing + 1;
                          representative_gene_id := representative_gene_id existing;
                          file_paths := add_path file_path (file_paths existing);
                          metadata := metadata existing |}]>
                  (content_hashes db))
               (other_rows id (gene_evolution db)
                ++ [{| gene_id := id;
                       content_hash := h;
                       parent_gene_id := Some (representative_gene_id existing);
                       evolution_type := "duplication";
                       confidence_score := lit_0_95;
                       timestamp := clk 1%nat;
                       evolution_metadata :=
                         [("original_file",
                           PStr (List.hd file_path (file_paths existing)));
                          ("duplicate_file", PStr file_path)] |}]),
             dict [("is_duplicate", PBool true);
                   ("representative_gene_id", PStr (representative_gene_id existing));
                   ("occurrence_count", PInt (occurrence_count existing + 1));
                   ("action", PStr "linked_to_existing")])).
Proof.
  intros h. split.
  - intros Hh Hid. exact (register_gene_new clk db gene_data id file_path Hh Hid).
  - intros existing Hh.
    exact (register_gene_existing clk db gene_data id file_path existing Hh).
Qed.

(** Witness of C1: the scenario [G-1] in [a.js], then [G-2] in [b.js]. *)
Lemma register_gene_spec_witness :
  committed (register_gene (clock_at "t0") init_database sum_gene "G-1" "a.js")
  = Some db_one
  /\ returned (register_gene (clock_at "t1") db_one sum_gene "G-2" "b.js")
     = Some (dict [("is_duplicate", PBool true);
                   ("representative_gene_id", PStr "G-1");
                   ("occurrence_count", PInt 2);
                   ("action", PStr "linked_to_existing")]).
Proof.
  split.
  - rewrite (proj1 (register_gene_spec (clock_at "t0") init_database sum_gene "G-1" "a.js")).
    + by_compute.
    + by_compute.
    + cbn. apply not_elem_of_nil.
  - rewrite (proj2 (register_gene_spec (clock_at "t1") db_one sum_gene "G-2" "b.js")
               (created_row (clock_at "t0") sum_gene "G-1" "a.js")).
    + reflexivity.
    + by_compute.
Defined.

(** C1 as stated fails: the dictionary returned for a new fingerprint
    has neither [representative_gene_id] nor [occurrence_count]. *)
Lemma register_gene_result_counterexample :
  returned (register_gene (clock_at "t0") init_database sum_gene "G-1" "a.js")
  = Some (dict [("is_duplicate", PBool false);
                ("gene_id", PStr "G-1");
                ("action", PStr "created_new")])
  /\ dict [("is_duplicate", PBool false);
           ("gene_id", PStr "G-1");
           ("action", PStr "created_new")] !! "representative_gene_id" = None
  /\ dict [("is_duplicate", PBool false);
           ("gene_id", PStr "G-1");
           ("action", PStr "created_new")] !! "occurrence_count" = None.
Proof. split; [by_compute|split; by_compute]. Qed.

(** A gene id already in the ledger, submitted with new content: the
    insert into [gene_evolution] violates the primary key. *)
Example register_gene_raises :
  register_gene (clock_at "t1") db_one (gene_of "other") "G-1" "a.js"
  = inl IntegrityError.
Proof. by_compute. Qed.

(** ** Sequences of calls *)

Section Sequences.

Lemma run_cons (db : DB) (c : Call) (calls : list Call) :
  run db (c :: calls) = run (apply_call db c) calls.
Proof. reflexivity. Qed.

Lemma add_path_idem (file_path : string) (paths : list string) :
  add_path file_path (add_path file_path paths) = add_path file_path paths.
Proof.
  unfold add_path at 1. rewrite decide_True; [reflexivity|apply add_path_elem].
Qed.

Lemma add_path_hd (file_path : string) (paths : list string) :
  List.hd file_path (add_path file_path paths) = List.hd file_path paths.
Proof.
  unfold add_path. destruct (decide _); [reflexivity|]. now destruct paths.
Qed.

(** A call that returns has taken one of the two committed paths. *)
Lemma register_gene_returns clk db gene_data id file_path db' result :
  register_gene clk db gene_data id file_path = inr (db', result) ->
  (content_hashes db !! hash_of gene_data = None
   /\ db' = mkDB (<[hash_of gene_data := created_row clk gene_data id file_path]>
                    (content_hashes db))
                 (gene_evolution db ++ [creation_record clk gene_data id file_path]))
  \/ (exists existing,
        content_hashes db !! hash_of gene_data = Some existing
        /\ db' = mkDB (<[hash_of gene_data := updated_row clk existing file_path]>
                         (content_hashes db))
                      (other_rows id (gene_evolution db)
                       ++ [duplication_record clk existing gene_data id file_path])).
Proof.
  destruct (content_hashes db !! hash_of gene_data) as [existing|] eqn:Hh.
  - rewrite (register_gene_existing _ _ _ _ _ _ Hh). intros [= <- _].
    right. now exists existing.
  - destruct (decide (id ∈ gene_id <$> gene_evolution db)) as [Hid|Hid].
    + now rewrite (register_gene_reused_id _ _ _ _ _ Hh Hid).
    + rewrite (register_gene_new _ _ _ _ _ Hh Hid). intros [= <- _]. now left.
Qed.

Lemma run_same_hash (calls : list Call) (db : DB) (h : string) (row : ContentHashRecord) :
  (forall c, c ∈ calls -> hash_of (call_gene c) = h) ->
  content_hashes db !! h = Some row ->
  exists row',
    content_hashes (run db calls) !! h = Some row'
    /\ occurrence_count row' = (occurrence_count row + Z.of_nat (List.length calls))%Z
    /\ representative_gene_id row' = representative_gene_id row.
Proof.
  revert db row. induction calls as [|c calls IH]; intros db row Hall Hrow.
  - exists row. cbn. split; [exact Hrow|]. split; [lia|reflexivity].
  - rewrite run_cons.
    assert (Hc : hash_of (call_gene c) = h) by apply Hall, list_elem_of_here.
    rewrite <- Hc in Hrow.
    destruct (IH (apply_call db c) (updated_row (call_clock c) row (call_file_path c)))
      as (row' & Hl & Hn & Hr).
    + intros c' Hc'. apply Hall. now apply list_elem_of_further.
    + unfold apply_call. rewrite (register_gene_existing _ _ _ _ _ _ Hrow).
      cbn [content_hashes]. rewrite <- Hc. apply lookup_insert_eq.
    + exists row'. split; [exact Hl|]. split; [|exact Hr].
      rewrite Hn. cbn [updated_row occurrence_count List.length]. lia.
Qed.

End Sequences.

(** ** Resubmission *)

(** C5, amended.  [register_gene] is not idempotent: after a call that
    returned, a second call with the same gene, gene id and path finds
    the fingerprint in the store; it leaves [first_seen], the
    representative, the paths and the metadata as they are, increments
    [occurrence_count] once more, updates [last_seen], replaces the
    record of the gene id in the ledger by a [duplication] record and
    returns [linked_to_existing]. *)
Theorem register_gene_resubmission (clk clk' : nat -> Timestamp) (db db1 : DB)
  (gene_data : GeneData) (id file_path : string) (result1 : Dict) :
  register_gene clk db gene_data id file_path = inr (db1, result1) ->
  exists row1,
    content_hashes db1 !! hash_of gene_data = Some row1
    /\ register_gene clk' db1 gene_data id file_path
       = inr (mkDB
                (<[hash_of gene_data :=
                     {| first_seen := first_seen row1;
                        last_seen := clk' 0%nat;
                        occurrence_count := occurrence_count row1 + 1;
                        representative_gene_id := representative_gene_id row1;
                        file_paths := file_paths row1;
                        metadata := metadata row1 |}]>
                   (content_hashes db1))
                (other_rows id (gene_evolution db1)
                 ++ [{| gene_id := id;
                        content_hash := hash_of gene_data;
                        parent_gene_id := Some (representative_gene_id row1);
                        evolution_type := "duplication";
                        confidence_score := lit_0_95;
                        timestamp := clk' 1%nat;
                        evolution_metadata :=
                          [("original_file", PStr (List.hd file_path (file_paths row1)));
                           ("duplicate_file", PStr file_path)] |}]),
              dict [("is_duplicate", PBool true);
                    ("representative_gene_id", PStr (representative_gene_id row1));
                    ("occurrence_count", PInt (occurrence_count row1 + 1));
                    ("action", PStr "linked_to_existing")]).
Proof.
  intros H1.
  assert (exists row1, content_hashes db1 !! hash_of gene_data = Some row1
                       /\ add_path file_path (file_paths row1) = file_paths row1)
    as (row1 & Hrow1 & Hpaths).
  { destruct (register_gene_returns _ _ _ _ _ _ _ H1) as [[_ ->]|(existing & _ & ->)];
      cbn [content_hashes]; rewrite lookup_insert_eq; eexists; (split; [reflexivity|]).
    - cbn. unfold add_path. rewrite decide_True; [reflexivity|apply list_elem_of_here].
    - cbn. apply add_path_idem. }
  exists row1. split; [exact Hrow1|].
  rewrite (register_gene_existing _ _ _ _ _ _ Hrow1).
  unfold updated_row, duplication_record. now rewrite Hpaths.
Qed.

(** Witness of C5: [G-1] in [a.js] submitted again. *)
Lemma register_gene_resubmission_witness :
  exists row1,
    content_hashes db_one !! hash_of sum_gene = Some row1
    /\ committed (register_gene (clock_at "t0") db_one sum_gene "G-1" "a.js")
       = Some (mkDB (<[hash_of sum_gene :=
                         mkHashRow (first_seen row1) "t0" (occurrence_count row1 + 1)
                                   (representative_gene_id row1) (file_paths row1)
                                   (metadata row1)]>
                       (content_hashes db_one))
                    (other_rows "G-1" (gene_evolution db_one)
                     ++ [mkEvolution "G-1" (hash_of sum_gene)
                           (Some (representative_gene_id row1)) "duplication" lit_0_95 "t0"
                           [("original_file", PStr (List.hd "a.js" (file_paths row1)));
                            ("duplicate_file", PStr "a.js")]])).
Proof.
  destruct (register_gene_resubmission (clock_at "t0") (clock_at "t0")
              init_database db_one sum_gene "G-1" "a.js"
              (dict [("is_duplicate", PBool false); ("gene_id", PStr "G-1");
                     ("action", PStr "created_new")]))
    as (row1 & Hrow1 & H2).
  - by_compute.
  - exists row1. split; [exact Hrow1|]. rewrite H2. reflexivity.
Defined.

(** C5 as stated fails: the second submission of [G-1] in [a.js], made
    at the same clock reading, changes the store and counts 2. *)
Lemma resubmission_counterexample :
  committed (register_gene (clock_at "t0") init_database sum_gene "G-1" "a.js")
  = Some db_one
  /\ committed (register_gene (clock_at "t0") db_one sum_gene "G-1" "a.js")
     = Some db_two
  /\ db_two <> db_one
  /\ occurrence_count <$> (content_hashes db_one !! hash_of sum_gene) = Some 1%Z
  /\ occurrence_count <$> (content_hashes db_two !! hash_of sum_gene) = Some 2%Z.
Proof.
  split; [by_compute|]. split; [by_compute|]. split; [|split; by_compute].
  intros H. apply (f_equal (fun db => List.map evolution_type (gene_evolution db))) in H.
  vm_compute in H. discriminate H.
Qed.

(** ** The ledger and the rows over time *)

(** C6, amended.  The ledger holds one record per gene id.  A call that
    returns writes one record, for its gene id, at the end of the ledger,
    in place of an earlier record of that gene id if there is one.  Over
    any sequence of calls, the records of the gene ids that are not
    submitted again stay in the ledger, unchanged and in order, and every
    row of [content_hashes] stays, with [first_seen], the representative
    and the metadata unchanged, the counter and the path list only
    growing. *)
Theorem ledger_records_kept (db : DB) (calls : list Call) :
  kept_rows (call_gene_id <$> calls) (gene_evolution (run db calls))
  = kept_rows (call_gene_id <$> calls) (gene_evolution db)
  /\ (forall (h : string) (row : ContentHashRecord),
      content_hashes db !! h = Some row ->
      exists row', content_hashes (run db calls) !! h = Some row' /\ row_extends row row')
  /\ (forall clk gene_data id file_path db' result,
      register_gene clk db gene_data id file_path = inr (db', result) ->
      exists e, gene_id e = id
                /\ gene_evolution db' = other_rows id (gene_evolution db) ++ [e]).
Proof.
  split; [|split].
  - apply run_kept. intros c Hc. now apply list_elem_of_fmap_2.
  - intros h row Hrow. now apply run_rows.
  - intros clk gene_data id file_path db' result H.
    destruct (register_gene_returns _ _ _ _ _ _ _ H) as [[Hh ->]|(existing & Hh & ->)].
    + eexists. split; [|cbn [gene_evolution]; f_equal]; [reflexivity|].
      symmetry. apply other_rows_fresh.
      destruct (decide (id ∈ gene_id <$> gene_evolution db)) as [Hid|Hid]; [|exact Hid].
      now rewrite (register_gene_reused_id _ _ _ _ _ Hh Hid) in H.
    + eexists. split; [|reflexivity]. reflexivity.
Qed.

(** Witness of C6: [G-2] registered in the store that holds [G-1]. *)
Lemma ledger_records_kept_witness :
  (exists row',
     content_hashes (run db_one [mkCall (clock_at "t1") sum_gene "G-2" "b.js"])
       !! hash_of sum_gene = Some row'
     /\ row_extends (created_row (clock_at "t0") sum_gene "G-1" "a.js") row')
  /\ (exists e, gene_id e = "G-2"
                /\ gene_evolution
                     (run db_one [mkCall (clock_at "t1") sum_gene "G-2" "b.js"])
                   = other_rows "G-2" (gene_evolution db_one) ++ [e]).
Proof.
  split.
  - refine (proj1 (proj2 (ledger_records_kept db_one
                            [mkCall (clock_at "t1") sum_gene "G-2" "b.js"])) _ _ _).
    by_compute.
  - refine (proj2 (proj2 (ledger_records_kept db_one []))
                  (clock_at "t1") sum_gene "G-2" "b.js" _
                  (dict [("is_duplicate", PBool true);
                         ("representative_gene_id", PStr "G-1");
                         ("occurrence_count", PInt 2);
                         ("action", PStr "linked_to_existing")]) _).
    by_compute.
Defined.

(** C6 as stated fails: submitting [G-1] again removes its [creation]
    record from the ledger, which has one record before and after. *)
Lemma ledger_overwrite_counterexample :
  committed (register_gene (clock_at "t0") init_database sum_gene "G-1" "a.js")
  = Some db_one
  /\ committed (register_gene (clock_at "t0") db_one sum_gene "G-1" "a.js")
     = Some db_two
  /\ (creation_record (clock_at "t0") sum_gene "G-1" "a.js" ∈ gene_evolution db_one)
  /\ (creation_record (clock_at "t0") sum_gene "G-1" "a.js" ∉ gene_evolution db_two)
  /\ List.length (gene_evolution db_two) = List.length (gene_evolution db_one).
Proof.
  split; [by_compute|]. split; [by_compute|]. split; [apply list_elem_of_here|].
  split; [|reflexivity].
  intros H. apply list_elem_of_singleton in H.
  apply (f_equal evolution_type) in H. discriminate H.
Qed.

(** C7.  From a store that does not hold the fingerprint, and whose ledger
    does not hold the first gene id, N calls whose genes have that
    fingerprint all return and leave one row for it, with
    [occurrence_count = N] and the gene id of the first call as
    representative; whatever calls follow, the representative stays and
    the path list only grows.  (The gene ids need not even be distinct.) *)
Theorem occurrence_count_counts (db : DB) (first : Call) (rest later : list Call)
  (h : string) :
  (forall c, c ∈ first :: rest -> hash_of (call_gene c) = h) ->
  content_hashes db !! h = None ->
  call_gene_id first ∉ gene_id <$> gene_evolution db ->
  exists row,
    content_hashes (run db (first :: rest)) !! h = Some row
    /\ occurrence_count row = Z.of_nat (List.length (first :: rest))
    /\ representative_gene_id row = call_gene_id first
    /\ exists row',
         content_hashes (run (run db (first :: rest)) later) !! h = Some row'
         /\ representative_gene_id row' = call_gene_id first
         /\ file_paths row `prefix_of` file_paths row'.
Proof.
  intros Hall Hnew Hfresh.
  assert (Hf : hash_of (call_gene first) = h) by apply Hall, list_elem_of_here.
  rewrite <- Hf in Hnew.
  destruct (run_same_hash rest (apply_call db first) h
              (created_row (call_clock first) (call_gene first) (call_gene_id first)
                           (call_file_path first)))
    as (row & Hrow & Hn & Hr).
  - intros c Hc. apply Hall. now apply list_elem_of_further.
  - unfold apply_call. rewrite (register_gene_new _ _ _ _ _ Hnew Hfresh).
    cbn [content_hashes]. rewrite <- Hf. apply lookup_insert_eq.
  - exists row. rewrite run_cons. split; [exact Hrow|]. split; [|split].
    + rewrite Hn. cbn [created_row occurrence_count List.length]. lia.
    + exact Hr.
    + destruct (run_rows later _ h row Hrow) as (row' & Hrow' & _ & Hrep & _ & _ & Hp).
      exists row'. split; [exact Hrow'|]. split; [now rewrite Hrep, Hr|exact Hp].
Qed.

(** Witness of C7: three registrations, then a fourth. *)
Lemma occurrence_count_counts_witness :
  exists row,
    content_hashes (run init_database three_calls) !! hash_of sum_gene = Some row
    /\ occurrence_count row = 3%Z
    /\ representative_gene_id row = "G-1"
    /\ exists row',
         content_hashes
           (run (run init_database three_calls)
                [mkCall (clock_at "t3") sum_gene "G-4" "c.js"]) !! hash_of sum_gene
         = Some row'
         /\ representative_gene_id row' = "G-1"
         /\ file_paths row `prefix_of` file_paths row'.
Proof.
  refine (occurrence_count_counts init_database
            (mkCall (clock_at "t0") sum_gene "G-1" "a.js")
            (List.tl three_calls)
            [mkCall (clock_at "t3") sum_gene "G-4" "c.js"] (hash_of sum_gene) _ _ _).
  - intros c Hc. cbn in Hc.
    repeat (apply elem_of_cons in Hc as [->|Hc]; [by_compute|]).
    now apply not_elem_of_nil in Hc.
  - by_compute.
  - cbn. apply not_elem_of_nil.
Defined.

(** ** Reconstruction *)

Import Reconstruction.

Section Ordering.

Lemma insert_desc_perm (g : GeneRow) (l : list GeneRow) : insert_desc g l ≡ₚ g :: l.
Proof.
  induction l as [|h t IH]; cbn [insert_desc]; [reflexivity|].
  destruct (created_at h <? created_at g)%Z; [reflexivity|].
  rewrite IH. apply Permutation_swap.
Qed.

Lemma insert_desc_sorted (g : GeneRow) (l : list GeneRow) :
  StronglySorted newer_first l -> StronglySorted newer_first (insert_desc g l).
Proof.
  induction 1 as [|h t Ht IH Hh]; cbn [insert_desc].
  - repeat constructor.
  - destruct (Z.ltb_spec (created_at h) (created_at g)) as [Hlt|Hge].
    + constructor; [now constructor|].
      constructor; [unfold newer_first; lia|].
      eapply Forall_impl; [exact Hh|]. unfold newer_first. intros x Hx. lia.
    + constructor; [exact IH|].
      rewrite insert_desc_perm. constructor; [exact Hge|exact Hh].
Qed.

Lemma order_by_acc (l acc : list GeneRow) :
  StronglySorted newer_first acc ->
  StronglySorted newer_first (fold_left (fun acc g => insert_desc g acc) l acc)
  /\ fold_left (fun acc g => insert_desc g acc) l acc ≡ₚ acc ++ l.
Proof.
  revert acc. induction l as [|g l IH]; intros acc Hacc; cbn [fold_left].
  - split; [exact Hacc|now rewrite app_nil_r].
  - destruct (IH (insert_desc g acc) (insert_desc_sorted g acc Hacc)) as [Hs Hp].
    split; [exact Hs|]. rewrite Hp, insert_desc_perm.
    cbn [app]. apply Permutation_middle.
Qed.

Lemma order_by_sorted (l : list GeneRow) :
  StronglySorted newer_first (order_by_created_at_desc l).
Proof. apply order_by_acc. constructor. Qed.

Lemma order_by_perm (l : list GeneRow) : order_by_created_at_desc l ≡ₚ l.
Proof. apply (order_by_acc l []). constructor. Qed.

(** Two sorted arrangements of the same rows are equal when no two
    distinct rows have the same instant. *)
Lemma sorted_perm_unique (l l' : list GeneRow) :
  (forall x y, x ∈ l -> y ∈ l -> created_at x = created_at y -> x = y) ->
  StronglySorted newer_first l -> StronglySorted newer_first l' ->
  l ≡ₚ l' -> l = l'.
Proof.
  revert l'. induction l as [|x xs IH]; intros l' Hinj Hs Hs' Hp.
  - now apply Permutation_nil_l in Hp.
  - destruct l' as [|y ys]; [now apply Permutation_nil_r in Hp|].
    apply StronglySorted_inv in Hs as [Hxs Hx].
    apply StronglySorted_inv in Hs' as [Hys Hy].
    assert (Hxy : x = y).
    { assert (Hx' : x ∈ y :: ys) by (rewrite <- Hp; apply list_elem_of_here).
      assert (Hy' : y ∈ x :: xs) by (rewrite Hp; apply list_elem_of_here).
      apply elem_of_cons in Hx' as [E|Hx']; [exact E|].
      apply elem_of_cons in Hy' as [E|Hy']; [now symmetry|].
      rewrite List.Forall_forall in Hx, Hy.
      apply Hinj; [apply list_elem_of_here|now apply list_elem_of_further|].
      pose proof (Hx y (proj1 (list_elem_of_In _ _) Hy')) as H1.
      pose proof (Hy x (proj1 (list_elem_of_In _ _) Hx')) as H2.
      unfold newer_first in H1, H2. lia. }
    subst y. f_equal. apply IH; [|exact Hxs|exact Hys|].
    + intros a b Ha Hb. apply Hinj; now apply list_elem_of_further.
    + now apply Permutation_cons_inv in Hp.
Qed.

Lemma select_latest (table : list GeneRow) (path : string) :
  select_genes table path "latest"
  = order_by_created_at_desc
      (List.filter (fun g => String.eqb (file_path g) path) table).
Proof.
  unfold select_genes. f_equal. apply List.filter_ext. intros g.
  change (String.eqb "latest" "latest") with true. cbn [orb]. apply andb_true_r.
Qed.

End Ordering.

(** C2.  When the rows of a path are a function gene [G1], a full-file
    gene [F1] and a function gene [G2], created in this order of time,
    [reconstruct_file] with version [latest] visits [G2], [F1], [G1],
    succeeds with exactly the stored content of [F1] and [gene_count = 1]:
    the content gathered from [G2] is replaced and the walk stops at [F1],
    whatever [G1] holds. *)
Theorem reconstruct_latest_full_file_wins (table : list GeneRow) (path : string)
  (G1 F1 G2 : GeneRow) (function2 full_file : Dict) (code2 stored : string) :
  List.filter (fun g => String.eqb (file_path g) path) table ≡ₚ [G1; F1; G2] ->
  (created_at G1 < created_at F1)%Z ->
  (created_at F1 < created_at G2)%Z ->
  content G2 = JObject function2 ->
  function2 !! "type" = Some (PStr "function") ->
  default (PStr "") (function2 !! "code") = PStr code2 ->
  content F1 = JObject full_file ->
  full_file !! "type" = Some (PStr "full_file") ->
  full_file !! "content" = Some (PStr stored) ->
  select_genes table path "latest" = [G2; F1; G1]
  /\ walk [G2; F1; G1] "" 0 = Some (PStr stored, 1%Z)
  /\ reconstruct_file (Some table) path "latest"
     = Success {| r_file_path := path;
                  r_version := "latest";
                  reconstructed_content := stored;
                  gene_count := 1;
                  genes_used := [gene_id G2; gene_id F1; gene_id G1];
                  content_hash := Py.take 8 (SHA256.hexdigest (Py.encode stored)) |}.
Proof.
  intros Hp H12 H23 HG2 Ht2 Hc2 HF1 Htf Hcf.
  assert (Hsel : select_genes table path "latest" = [G2; F1; G1]).
  { rewrite select_latest. apply sorted_perm_unique.
    - intros x y Hx Hy E. rewrite order_by_perm, Hp in Hx, Hy.
      rewrite !elem_of_cons in Hx, Hy.
      destruct Hx as [->|[->|[->|Hx]]]; [| | |now apply not_elem_of_nil in Hx];
        (destruct Hy as [->|[->|[->|Hy]]]; [| | |now apply not_elem_of_nil in Hy]);
        (reflexivity || lia).
    - apply order_by_sorted.
    - repeat constructor; unfold newer_first; lia.
    - rewrite order_by_perm, Hp. apply Permutation_rev. }
  assert (Hwalk : walk [G2; F1; G1] "" 0 = Some (PStr stored, 1%Z)).
  { cbn [walk]. rewrite HG2, Ht2, Hc2. cbn [String.eqb Ascii.eqb Bool.eqb].
    rewrite HF1, Htf. cbn [String.eqb Ascii.eqb Bool.eqb]. now rewrite Hcf. }
  split; [exact Hsel|]. split; [exact Hwalk|].
  unfold reconstruct_file. rewrite Hsel, Hwalk. reflexivity.
Qed.

(** Witness of C2: the table above. *)
Lemma reconstruct_latest_full_file_wins_witness :
  reconstruct_file (Some genes_table) "a.js" "latest"
  = Success {| r_file_path := "a.js";
               r_version := "latest";
               reconstructed_content := "whole file";
               gene_count := 1;
               genes_used := ["G2"; "F1"; "G1"];
               content_hash :=
                 Py.take 8 (SHA256.hexdigest (Py.encode "whole file")) |}.
Proof.
  refine (proj2 (proj2 (reconstruct_latest_full_file_wins genes_table "a.js"
            (mkRow "G1" "a.js" 1 (function_json "g1()"))
            (mkRow "F1" "a.js" 2 (full_file_json "whole file"))
            (mkRow "G2" "a.js" 3 (function_json "g2()"))
            (dict [("type", PStr "function"); ("code", PStr "g2()")])
            (dict [("type", PStr "full_file"); ("content", PStr "whole file")])
            "g2()" "whole file" _ _ _ _ _ _ _ _ _)));
    try reflexivity.
  apply (Permutation_cons_append
           [mkRow "G1" "a.js" 1 (function_json "g1()");
            mkRow "F1" "a.js" 2 (full_file_json "whole file")]
           (mkRow "G2" "a.js" 3 (function_json "g2()"))).
Defined.

(** * Further properties of the code *)

(** ** Normalisation *)

Section Idempotence.

Lemma collapse_head (s : string) : head_space (Spec.collapse_runs s) = head_space s.
Proof.
  unfold no_newline in *.
  induction s as [|c s IH]; [reflexivity|]. cbn [Spec.collapse_runs head_space].
  destruct (Py.isspace c) eqn:Hc; [|cbn; exact Hc].
  destruct s as [|d s]; [reflexivity|].
  destruct (Py.isspace d) eqn:Hd; [|reflexivity].
  rewrite IH. cbn. exact Hd.
Qed.

Lemma collapse_idem (s : string) :
  Spec.collapse_runs (Spec.collapse_runs s) = Spec.collapse_runs s.
Proof.
  unfold no_newline in *.
  induction s as [|c s IH]; [reflexivity|]. cbn [Spec.collapse_runs].
  destruct (Py.isspace c) eqn:Hc.
  - destruct s as [|d s]; [reflexivity|].
    destruct (Py.isspace d) eqn:Hd; [exact IH|].
    cbn [Spec.collapse_runs] in *. rewrite Hd in *.
    change (Py.isspace " ") with true. cbn iota. rewrite Hd. now rewrite IH.
  - cbn [Spec.collapse_runs]. rewrite Hc. now rewrite IH.
Qed.

Lemma collapse_nonempty (s : string) : s <> "" -> Spec.collapse_runs s <> "".
Proof.
  unfold no_newline in *.
  induction s as [|c s IH]; [congruence|]. intros _. cbn [Spec.collapse_runs].
  destruct (Py.isspace c); [|discriminate].
  destruct s as [|d s]; [discriminate|].
  destruct (Py.isspace d); [apply IH|]; discriminate.
Qed.

Lemma rstrip_cons (c : ascii) (s : string) :
  Py.rstrip s = s -> (s = "" -> Py.isspace c = false) ->
  Py.rstrip (String c s) = String c s.
Proof.
  unfold no_newline in *.
  intros Hs Hc. cbn [Py.rstrip]. rewrite Hs.
  destruct s; [now rewrite Hc|reflexivity].
Qed.

Lemma collapse_rstrip (s : string) :
  Py.rstrip s = s -> Py.rstrip (Spec.collapse_runs s) = Spec.collapse_runs s.
Proof.
  unfold no_newline in *.
  induction s as [|c s IH]; [reflexivity|]. intros Hr.
  pose proof (rstrip_tail _ _ Hr) as Hr'. specialize (IH Hr').
  cbn [Spec.collapse_runs]. destruct (Py.isspace c) eqn:Hc.
  - destruct s as [|d s].
    + cbn in Hr. rewrite Hc in Hr. discriminate.
    + destruct (Py.isspace d); [exact IH|].
      apply rstrip_cons; [exact IH|]. intros E.
      now apply collapse_nonempty in E.
  - apply rstrip_cons; [exact IH|]. intros _. exact Hc.
Qed.

Lemma lstrip_id (s : string) : head_space s = false -> Py.lstrip s = s.
Proof. destruct s as [|c s]; [reflexivity|]. cbn. now intros ->. Qed.

Lemma collapse_startswith (p s : string) :
  all_chars (fun c => negb (Py.isspace c)) p = true ->
  Py.startswith (Spec.collapse_runs s) p = Py.startswith s p.
Proof.
  unfold no_newline in *.
  revert s. induction p as [|a p IH]; intros s Hp.
  - destruct (Spec.collapse_runs s); now destruct s.
  - cbn [all_chars] in Hp. apply andb_prop in Hp as [Ha Hp].
    apply negb_true_iff in Ha.
    assert (Hsp : forall d, Py.isspace d = true -> Ascii.eqb a d = false).
    { intros d Hd. apply Ascii.eqb_neq. intros ->. congruence. }
    induction s as [|c s IHs]; [reflexivity|].
    cbn [Spec.collapse_runs]. destruct (Py.isspace c) eqn:Hc.
    + cbn [Py.startswith]. rewrite (Hsp c Hc). cbn [andb].
      destruct s as [|d s]; [cbn; now rewrite (Hsp " "%char)|].
      destruct (Py.isspace d) eqn:Hd.
      * rewrite IHs. cbn [Py.startswith]. now rewrite (Hsp d Hd).
      * cbn [Py.startswith]. now rewrite (Hsp " "%char).
    + cbn [Py.startswith]. now rewrite IH.
Qed.

Lemma collapse_dropped (s : string) :
  Spec.dropped (Spec.collapse_runs s) = Spec.dropped s.
Proof.
  unfold no_newline in *.
  rewrite <- !dropped_agrees. unfold Py.startswith_any, comment_prefixes.
  cbn [existsb]. rewrite !collapse_startswith by reflexivity.
  f_equal. destruct s as [|c s]; [reflexivity|].
  pose proof (collapse_nonempty (String c s)) as H.
  destruct (Spec.collapse_runs (String c s)); [now elim H|reflexivity].
Qed.

Lemma collapse_no_newline (s : string) :
  no_newline s = true ->
  no_newline (Spec.collapse_runs s) = true.
Proof.
  unfold no_newline in *.
  induction s as [|c s IH]; [reflexivity|]. cbn [all_chars].
  intros H. apply andb_prop in H as [Hc Hs]. specialize (IH Hs).
  cbn [Spec.collapse_runs]. destruct (Py.isspace c).
  - destruct s as [|d s]; [reflexivity|]. destruct (Py.isspace d); [exact IH|].
    cbn [all_chars]. now rewrite IH.
  - cbn [all_chars]. now rewrite Hc, IH.
Qed.

Lemma split_on_no_newline (s : string) :
  Forall (fun l => no_newline l = true)
         (Py.split_on newline s).
Proof.
  unfold no_newline in *.
  induction s as [|c s IH]; [repeat constructor|]. cbn [Py.split_on].
  destruct (Ascii.eqb c newline) eqn:Hc.
  - now constructor.
  - destruct (Py.split_on newline s) as [|w ws]; [repeat constructor; cbn; now rewrite Hc|].
    apply Forall_cons in IH as [Hw Hws]. constructor; [|exact Hws].
    cbn [all_chars]. now rewrite Hc, Hw.
Qed.

Lemma lstrip_no_newline (s : string) :
  no_newline s = true ->
  no_newline (Py.lstrip s) = true.
Proof.
  unfold no_newline in *.
  induction s as [|c s IH]; [reflexivity|]. cbn [all_chars Py.lstrip]. intros H.
  destruct (Py.isspace c); [apply IH; now apply andb_prop in H|exact H].
Qed.

Lemma rstrip_no_newline (s : string) :
  no_newline s = true ->
  no_newline (Py.rstrip s) = true.
Proof.
  unfold no_newline in *.
  induction s as [|c s IH]; [reflexivity|]. cbn [all_chars Py.rstrip]. intros H.
  apply andb_prop in H as [Hc Hs]. specialize (IH Hs).
  destruct (Py.rstrip s); [destruct (Py.isspace c); cbn; [reflexivity|now rewrite Hc]|].
  cbn [all_chars] in *. now rewrite Hc, IH.
Qed.

(** Every line [_normalize_content] keeps is clean. *)
Lemma normalized_lines_clean (lines : list string) :
  Forall (fun l => no_newline l = true) lines ->
  Forall tidy_line
    (List.map Spec.collapse_runs
       (List.filter (fun l => negb (Spec.dropped l)) (List.map Py.strip lines))).
Proof.
  unfold no_newline in *.
  induction 1 as [|l lines Hl _ IH]; [constructor|]. cbn [List.map List.filter].
  destruct (Spec.dropped (Py.strip l)) eqn:Hd; [exact IH|].
  cbn [negb List.map]. constructor; [|exact IH].
  assert (Hh : head_space (Spec.collapse_runs (Py.strip l)) = false)
    by (rewrite collapse_head; apply strip_head).
  split; [now rewrite collapse_dropped|]. split; [|split].
  - unfold Py.strip at 1. rewrite (lstrip_id _ Hh).
    apply collapse_rstrip, strip_rstrip.
  - apply collapse_idem.
  - apply collapse_no_newline, rstrip_no_newline, lstrip_no_newline, Hl.
Qed.

Lemma string_app_nil_r (s : string) : (s ++ "")%string = s.
Proof.
  unfold no_newline in *.
  induction s as [|c s IH]; [reflexivity|].
  change (String c s ++ "")%string with (String c (s ++ "")). now rewrite IH.
Qed.

Lemma split_on_nonempty (sep : ascii) (s : string) : Py.split_on sep s <> [].
Proof.
  unfold no_newline in *.
  induction s as [|c s IH]; [discriminate|]. cbn [Py.split_on].
  destruct (Ascii.eqb c sep); [discriminate|].
  destruct (Py.split_on sep s); discriminate.
Qed.

Lemma split_on_join (lines : list string) :
  lines <> [] ->
  Forall (fun l => no_newline l = true) lines ->
  Py.split_on newline (Py.join (String newline "") lines) = lines.
Proof.
  unfold no_newline in *.
  intros Hne H. induction H as [|l lines Hl Hls IH]; [congruence|]. clear Hne.
  assert (Hone : forall rest,
             Py.split_on newline (l ++ rest)%string
             = match Py.split_on newline rest with
               | [] => [l]
               | w :: ws => (l ++ w)%string :: ws
               end).
  { intros rest. induction l as [|c l IHl].
    - change ("" ++ rest)%string with rest.
      pose proof (split_on_nonempty newline rest) as Hn.
      destruct (Py.split_on newline rest); [congruence|reflexivity].
    - cbn [all_chars] in Hl. apply andb_prop in Hl as [Hc Hl].
      apply negb_true_iff in Hc.
      change (String c l ++ rest)%string with (String c (l ++ rest)).
      cbn [Py.split_on]. rewrite Hc.
      rewrite (IHl Hl). pose proof (split_on_nonempty newline rest) as Hn.
      destruct (Py.split_on newline rest); [congruence|reflexivity]. }
  destruct lines as [|l' lines].
  - cbn [Py.join]. rewrite <- (string_app_nil_r l) at 1. rewrite Hone.
    cbn [Py.split_on]. now rewrite string_app_nil_r.
  - change (Py.join (String newline "") (l :: l' :: lines))
      with (l ++ String newline (Py.join (String newline "") (l' :: lines)))%string.
    rewrite Hone. cbn [Py.split_on]. rewrite Ascii.eqb_refl.
    rewrite IH by discriminate. now rewrite string_app_nil_r.
Qed.

Lemma clean_lines_fixed (lines : list string) :
  Forall tidy_line lines ->
  List.map Spec.collapse_runs
    (List.filter (fun l => negb (Spec.dropped l)) (List.map Py.strip lines))
  = lines.
Proof.
  unfold no_newline in *.
  induction 1 as [|l lines (Hd & Hs & Hc & _) _ IH]; [reflexivity|].
  cbn [List.map List.filter]. rewrite Hs, Hd. cbn [negb List.map].
  now rewrite Hc, IH.
Qed.

Lemma tidy_line_clean (l : string) : tidy_line l -> clean_line l.
Proof.
  intros (Hd & Hs & Hc & Hn). split; [now rewrite dropped_agrees|].
  split; [exact Hs|]. split; [|exact Hn].
  assert (Hr : Py.rstrip l = l) by (rewrite <- Hs; apply strip_rstrip).
  assert (Hh : head_space l = false) by (rewrite <- Hs; apply strip_head).
  rewrite (collapse_join_split l Hr), Hh in Hc. exact Hc.
Qed.

End Idempotence.

(** X1.  Normalising twice is normalising once, so a content and its
    normal form have the same fingerprint. *)
Theorem normalize_idempotent (content gene_type name : string) :
  _normalize_content (_normalize_content content) = _normalize_content content
  /\ calculate_content_hash (_normalize_content content) gene_type name
     = calculate_content_hash content gene_type name.
Proof.
  assert (Hclean : Forall tidy_line
                     (fold_left normalize_line (Py.split_on newline content) [])).
  { rewrite normalize_loop. apply normalized_lines_clean, split_on_no_newline. }
  assert (Hidem : _normalize_content (_normalize_content content)
                  = _normalize_content content).
  { change (_normalize_content content)
      with (Py.join (String newline "")
              (fold_left normalize_line (Py.split_on newline content) [])).
    destruct (fold_left normalize_line (Py.split_on newline content) [])
      as [|l lines]; [reflexivity|].
    unfold _normalize_content. rewrite split_on_join; [|discriminate|].
    - rewrite normalize_loop. cbn [app]. now rewrite clean_lines_fixed.
    - eapply Forall_impl; [exact Hclean|]. now intros x (_ & _ & _ & Hx). }
  split; [exact Hidem|].
  unfold calculate_content_hash, composite. now rewrite Hidem.
Qed.

(** X2.  Every line of a normalised content that is not empty is clean:
    it is not empty, does not begin with [#], [//], [/*] or [*], and
    [strip] and [' '.join(line.split())] leave it as it is, so it has no
    whitespace at either end and no run of whitespace other than one
    space. *)
Theorem normalized_lines_are_clean (content : string) :
  _normalize_content content <> "" ->
  Forall clean_line (Py.split_on newline (_normalize_content content)).
Proof.
  assert (Htidy : Forall tidy_line
                    (fold_left normalize_line (Py.split_on newline content) [])).
  { rewrite normalize_loop. apply normalized_lines_clean, split_on_no_newline. }
  unfold _normalize_content.
  destruct (fold_left normalize_line (Py.split_on newline content) [])
    as [|l lines]; [now intros H|]. intros _.
  rewrite split_on_join; [|discriminate|].
  - eapply Forall_impl; [exact Htidy|]. apply tidy_line_clean.
  - eapply Forall_impl; [exact Htidy|]. now intros x (_ & _ & _ & Hx).
Qed.

Lemma normalized_lines_are_clean_witness :
  Forall clean_line
    (Py.split_on newline (_normalize_content (text_of_lines ["# adds"; "  x =  a+b "]))).
Proof.
  apply (normalized_lines_are_clean (text_of_lines ["# adds"; "  x =  a+b "])).
  intros H. vm_compute in H. discriminate H.
Defined.

(** ** Sorted answers *)

Section OrderBy.

Lemma insert_where_perm {A : Type} (before : A -> A -> bool) (x : A) (l : list A) :
  Sql.insert_where before x l ≡ₚ x :: l.
Proof.
  induction l as [|h t IH]; cbn [Sql.insert_where]; [reflexivity|].
  destruct (before x h); [reflexivity|]. rewrite IH. apply Permutation_swap.
Qed.

Lemma insert_where_sorted {A : Type} (before : A -> A -> bool) (R : A -> A -> Prop)
  (x : A) (l : list A) :
  Transitive R ->
  (forall a b, before a b = true -> R a b) ->
  (forall a b, before a b = false -> R b a) ->
  StronglySorted R l -> StronglySorted R (Sql.insert_where before x l).
Proof.
  intros Htrans Htrue Hfalse. induction 1 as [|h t Ht IH Hh]; cbn [Sql.insert_where].
  - repeat constructor.
  - destruct (before x h) eqn:E.
    + apply Htrue in E. constructor; [now constructor|].
      constructor; [exact E|].
      eapply Forall_impl; [exact Hh|]. intros y Hy. now transitivity h.
    + apply Hfalse in E. constructor; [exact IH|].
      rewrite insert_where_perm. constructor; [exact E|exact Hh].
Qed.

Lemma order_where_acc {A : Type} (before : A -> A -> bool) (R : A -> A -> Prop)
  (l acc : list A) :
  Transitive R ->
  (forall a b, before a b = true -> R a b) ->
  (forall a b, before a b = false -> R b a) ->
  StronglySorted R acc ->
  StronglySorted R (fold_left (fun acc x => Sql.insert_where before x acc) l acc)
  /\ fold_left (fun acc x => Sql.insert_where before x acc) l acc ≡ₚ acc ++ l.
Proof.
  intros Htrans Htrue Hfalse. revert acc.
  induction l as [|x l IH]; intros acc Hacc; cbn [fold_left].
  - split; [exact Hacc|now rewrite app_nil_r].
  - destruct (IH (Sql.insert_where before x acc)) as [Hs Hp].
    { now apply insert_where_sorted. }
    split; [exact Hs|]. rewrite Hp, insert_where_perm.
    cbn [app]. apply Permutation_middle.
Qed.

Lemma order_where_sorted {A : Type} (before : A -> A -> bool) (R : A -> A -> Prop)
  (l : list A) :
  Transitive R ->
  (forall a b, before a b = true -> R a b) ->
  (forall a b, before a b = false -> R b a) ->
  StronglySorted R (Sql.order_where before l).
Proof. intros. apply (order_where_acc before R l []); auto. constructor. Qed.

Lemma order_where_perm {A : Type} (before : A -> A -> bool) (l : list A) :
  Sql.order_where before l ≡ₚ l.
Proof.
  unfold Sql.order_where. change l with ([] ++ l) at 2. generalize (@nil A).
  induction l as [|x l IH]; intros acc; cbn [fold_left].
  - now rewrite app_nil_r.
  - rewrite IH, insert_where_perm. cbn [app]. apply Permutation_middle.
Qed.

Lemma ltb_false_le (s1 s2 : string) : String.ltb s1 s2 = false -> String.le s2 s1.
Proof.
  unfold String.ltb, String.le, String.leb. rewrite (String.compare_antisym s2 s1).
  destruct (s1 ?= s2)%string; cbn; intros H; (exact I || discriminate H).
Qed.

Lemma ltb_true_le (s1 s2 : string) : String.ltb s1 s2 = true -> String.le s1 s2.
Proof.
  unfold String.ltb, String.le, String.leb.
  destruct (s1 ?= s2)%string; cbn; intros H; (exact I || discriminate H).
Qed.

Lemma by_timestamp_sorted (l : list EvolutionRecord) :
  StronglySorted by_timestamp (Sql.order_where earlier l).
Proof.
  apply order_where_sorted.
  - intros a b c. unfold by_timestamp. apply transitivity.
  - intros a b. apply ltb_true_le.
  - intros a b. apply ltb_false_le.
Qed.

Lemma more_frequent_sorted (l : list ContentHashRecord) :
  StronglySorted more_frequent (Sql.order_where more_often l).
Proof.
  apply order_where_sorted.
  - intros a b c. unfold more_frequent. lia.
  - intros a b. unfold more_often, more_frequent. rewrite Z.ltb_lt. lia.
  - intros a b. unfold more_often, more_frequent. rewrite Z.ltb_ge. lia.
Qed.

Lemma last_updated_sorted (l : list FileInfo) :
  StronglySorted last_updated_first (Sql.order_where updated_later l).
Proof.
  apply order_where_sorted.
  - intros a b c. unfold last_updated_first. lia.
  - intros a b. unfold updated_later, last_updated_first. rewrite Z.ltb_lt. lia.
  - intros a b. unfold updated_later, last_updated_first. rewrite Z.ltb_ge. lia.
Qed.

End OrderBy.

(** ** Duplicates and similarity *)

Import Dedup.

Section Duplicates.

(** X3.  A call of [register_gene] that returns reports as [is_duplicate]
    what [is_duplicate] answered before it; after it, [is_duplicate]
    answers true for every gene of the same fingerprint, with the
    representative the store had or else the gene id just registered,
    and answers as before for every gene of another fingerprint. *)
Theorem is_duplicate_tracks_register (clk : nat -> Timestamp) (db db' : DB)
  (gene_data other : GeneData) (id file_path : string) (result : Dict) :
  register_gene clk db gene_data id file_path = inr (db', result) ->
  result !! "is_duplicate" = Some (PBool (fst (is_duplicate db gene_data)))
  /\ (hash_of other = hash_of gene_data ->
      is_duplicate db' other
      = (true, Some (default id (snd (is_duplicate db gene_data)))))
  /\ (hash_of other <> hash_of gene_data ->
      is_duplicate db' other = is_duplicate db other).
Proof.
  intros H. unfold is_duplicate.
  destruct (register_gene_returns _ _ _ _ _ _ _ H) as [[Hh ->]|(existing & Hh & ->)].
  - rewrite (register_gene_new clk db gene_data id file_path Hh) in H.
    + injection H as <-. rewrite Hh. cbn [content_hashes fst snd default].
      split; [reflexivity|]. split.
      * intros ->. now rewrite lookup_insert_eq.
      * intros Hne. rewrite lookup_insert_ne; [reflexivity|congruence].
    + destruct (decide (id ∈ gene_id <$> gene_evolution db)) as [Hid|Hid]; [|exact Hid].
      now rewrite (register_gene_reused_id _ _ _ _ _ Hh Hid) in H.
  - rewrite (register_gene_existing _ _ _ _ _ _ Hh) in H. injection H as <-.
    rewrite Hh. cbn [content_hashes fst snd default].
    split; [reflexivity|]. split.
    + intros ->. now rewrite lookup_insert_eq.
    + intros Hne. rewrite lookup_insert_ne; [reflexivity|congruence].
Qed.

Lemma is_duplicate_tracks_register_witness :
  dict [("is_duplicate", PBool false); ("gene_id", PStr "G-1");
        ("action", PStr "created_new")] !! "is_duplicate"
  = Some (PBool (fst (is_duplicate init_database sum_gene)))
  /\ (hash_of sum_gene = hash_of sum_gene ->
      is_duplicate db_one sum_gene
      = (true, Some (default "G-1" (snd (is_duplicate init_database sum_gene)))))
  /\ (hash_of sum_gene <> hash_of sum_gene ->
      is_duplicate db_one sum_gene = is_duplicate init_database sum_gene).
Proof.
  apply (is_duplicate_tracks_register (clock_at "t0") init_database db_one
           sum_gene sum_gene "G-1" "a.js"
           (dict [("is_duplicate", PBool false); ("gene_id", PStr "G-1");
                  ("action", PStr "created_new")])).
  by_compute.
Defined.

End Duplicates.

Section Symmetry.

Lemma tokens_intersection_comm (A B : gset string) : A ∩ B = B ∩ A.
Proof. apply set_eq. intros x. rewrite !elem_of_intersection. tauto. Qed.

Lemma tokens_union_comm (A B : gset string) : A ∪ B = B ∪ A.
Proof. apply set_eq. intros x. rewrite !elem_of_union. tauto. Qed.

Lemma calculate_similarity_comm (content1 content2 : string) :
  _calculate_similarity content1 content2 = _calculate_similarity content2 content1.
Proof.
  unfold _calculate_similarity.
  set (A := list_to_set _). set (B := list_to_set _).
  rewrite (andb_comm (bool_decide (A = ∅))).
  now rewrite (tokens_intersection_comm A B), (tokens_union_comm A B).
Qed.

End Symmetry.

(** X4.  The similarity of two contents does not depend on their order,
    and neither do the type, the confidence and the similarity that
    [detect_mutations] answers. *)
Theorem similarity_symmetric (old_gene new_gene : GeneData) :
  _calculate_similarity (content old_gene) (content new_gene)
  = _calculate_similarity (content new_gene) (content old_gene)
  /\ detect_mutations old_gene new_gene !! "type"
     = detect_mutations new_gene old_gene !! "type"
  /\ detect_mutations old_gene new_gene !! "confidence"
     = detect_mutations new_gene old_gene !! "confidence"
  /\ detect_mutations old_gene new_gene !! "similarity"
     = detect_mutations new_gene old_gene !! "similarity".
Proof.
  split; [apply calculate_similarity_comm|].
  unfold detect_mutations.
  rewrite (String.eqb_sym (hash_of new_gene)), (calculate_similarity_comm (content new_gene)).
  destruct (String.eqb (hash_of old_gene) (hash_of new_gene)); [now repeat split|].
  destruct (lit_0_8 <? _)%float; [now repeat split|].
  destruct (lit_0_3 <? _)%float; now repeat split.
Qed.


(** ** Statistics and consistency of the store *)

Section Statistics.

Lemma sum_perm (l l' : list Z) : l ≡ₚ l' -> Sql.sum l = Sql.sum l'.
Proof. induction 1; unfold Sql.sum in *; cbn [foldr]; lia. Qed.

Lemma sum_fmap_perm (f : ContentHashRecord -> Z) (l l' : list ContentHashRecord) :
  l ≡ₚ l' -> Sql.sum (f <$> l) = Sql.sum (f <$> l').
Proof. intros H. apply sum_perm. now rewrite H. Qed.

Lemma rows_insert_new (db : DB) (h : string) (row : ContentHashRecord) rest :
  content_hashes db !! h = None ->
  rows (mkDB (<[h := row]> (content_hashes db)) rest) ≡ₚ row :: rows db.
Proof.
  intros Hn. unfold rows. cbn [content_hashes].
  now rewrite map_to_list_insert.
Qed.

Lemma rows_lookup (db : DB) (h : string) (row : ContentHashRecord) :
  content_hashes db !! h = Some row ->
  rows db ≡ₚ row :: (snd <$> map_to_list (delete h (content_hashes db))).
Proof.
  intros Hs. unfold rows. now rewrite <- (map_to_list_delete _ _ _ Hs).
Qed.

Lemma rows_insert_old (db : DB) (h : string) (row row' : ContentHashRecord) rest :
  content_hashes db !! h = Some row ->
  rows (mkDB (<[h := row']> (content_hashes db)) rest)
  ≡ₚ row' :: (snd <$> map_to_list (delete h (content_hashes db))).
Proof.
  intros Hs. unfold rows. cbn [content_hashes].
  rewrite <- insert_delete_eq. rewrite map_to_list_insert; [reflexivity|].
  apply lookup_delete_eq.
Qed.

Lemma rows_elem (db : DB) (row : ContentHashRecord) :
  row ∈ rows db <-> exists h, content_hashes db !! h = Some row.
Proof.
  unfold rows. rewrite list_elem_of_fmap. split.
  - intros ([h r] & -> & Hin). exists h. now apply elem_of_map_to_list.
  - intros (h & Hh). exists (h, row). split; [reflexivity|].
    now apply elem_of_map_to_list.
Qed.

Lemma total_unique_duplicates (l : list ContentHashRecord) :
  Forall (fun row => 1 <= occurrence_count row)%Z l ->
  Sql.sum (occurrence_count <$> l)
  = (Z.of_nat (List.length l)
     + Sql.sum ((fun row => occurrence_count row - 1)
              <$> filter duplicated l))%Z.
Proof.
  induction 1 as [|row l Hrow _ IH]; [reflexivity|].
  rewrite filter_cons, fmap_cons. cbn [List.length]. rewrite Nat2Z.inj_succ.
  change (Sql.sum (occurrence_count row :: (occurrence_count <$> l)))
    with (occurrence_count row + Sql.sum (occurrence_count <$> l))%Z.
  rewrite IH. destruct (decide (duplicated row)) as [Hd|Hd]; unfold duplicated in Hd; [|lia].
  rewrite fmap_cons.
  change (Sql.sum (?x :: ?t)) with (x + Sql.sum t)%Z. lia.
Qed.

End Statistics.

Section Consistency.

Lemma consistent_init : consistent init_database.
Proof.
  split; cbn; try (intros ? ? H; now rewrite lookup_empty in H).
  - constructor.
  - intros e He. now apply not_elem_of_nil in He.
Qed.

Lemma add_path_NoDup (file_path : string) (paths : list string) :
  NoDup paths -> NoDup (add_path file_path paths).
Proof.
  intros H. unfold add_path. destruct (decide _) as [Hin|Hin]; [exact H|].
  apply NoDup_app. split; [exact H|]. split.
  - intros x Hx Hx'. apply list_elem_of_singleton in Hx'. now subst.
  - apply NoDup_singleton.
Qed.

Lemma add_path_nonempty (file_path : string) (paths : list string) :
  add_path file_path paths <> [].
Proof. rewrite add_path_cons. discriminate. Qed.

Lemma other_rows_ids (id : string) (rows : list EvolutionRecord) (x : string) :
  x ∈ gene_id <$> other_rows id rows <-> x ∈ gene_id <$> rows /\ x <> id.
Proof.
  unfold other_rows. induction rows as [|r rows IH]; cbn [List.filter fmap list_fmap].
  - split; [intros H; now apply not_elem_of_nil in H|intros [H _]; now apply not_elem_of_nil in H].
  - destruct (String.eqb_spec (gene_id r) id) as [E|Hne]; cbn [negb fmap list_fmap].
    + rewrite IH, elem_of_cons. split; [tauto|]. intros [[->|H] Hx]; [congruence|tauto].
    + rewrite !elem_of_cons, IH. split; [intros [->|H]; tauto|tauto].
Qed.

Lemma other_rows_elem (id : string) (rows : list EvolutionRecord) (e : EvolutionRecord) :
  e ∈ other_rows id rows <-> e ∈ rows /\ gene_id e <> id.
Proof.
  unfold other_rows. rewrite !list_elem_of_In, List.filter_In, negb_true_iff.
  now rewrite String.eqb_neq.
Qed.

Lemma other_rows_NoDup (id : string) (rows : list EvolutionRecord) :
  NoDup (gene_id <$> rows) -> NoDup (gene_id <$> other_rows id rows).
Proof.
  unfold other_rows. induction rows as [|r rows IH]; cbn [List.filter fmap list_fmap];
    [constructor|].
  intros H. apply NoDup_cons in H as [Hr H].
  destruct (String.eqb (gene_id r) id); cbn [negb fmap list_fmap]; [now apply IH|].
  apply NoDup_cons. split; [|now apply IH].
  intros Hin. apply other_rows_ids in Hin. tauto.
Qed.

Lemma consistent_apply_call (db : DB) (c : Call) :
  consistent db -> consistent (apply_call db c).
Proof.
  intros [Hcount Hpaths Hrep Hids Hlink].
  destruct (apply_call_outcome db c) as [Hh Hid|existing Hh|Hh Hid];
    [| |now split].
  - split; cbn [content_hashes gene_evolution].
    + intros h row. rewrite lookup_insert. case_decide as E.
      * intros [= <-]. cbn. lia.
      * apply Hcount.
    + intros h row. rewrite lookup_insert. case_decide as E.
      * intros [= <-]. cbn. split; [discriminate|apply NoDup_singleton].
      * apply Hpaths.
    + intros h row. rewrite lookup_insert, fmap_app, elem_of_app. case_decide as E.
      * intros [= <-]. right. cbn. apply list_elem_of_here.
      * intros H. left. eapply Hrep, H.
    + rewrite fmap_app. apply NoDup_app. split; [exact Hids|]. split.
      * intros x Hx Hx'. cbn in Hx'. apply list_elem_of_singleton in Hx'. now subst.
      * apply NoDup_singleton.
    + intros e He. apply elem_of_app in He as [He|He].
      * destruct (Hlink e He) as (row & Hrow & Hr). exists row. split; [|exact Hr].
        rewrite lookup_insert_ne; [exact Hrow|]. intros E. congruence.
      * apply list_elem_of_singleton in He as ->. cbn.
        rewrite lookup_insert_eq. eexists. split; reflexivity.
  - split; cbn [content_hashes gene_evolution].
    + intros h row. rewrite lookup_insert. case_decide as E.
      * intros [= <-]. cbn. specialize (Hcount _ _ Hh). lia.
      * apply Hcount.
    + intros h row. rewrite lookup_insert. case_decide as E.
      * intros [= <-]. cbn. split; [apply add_path_nonempty|].
        apply add_path_NoDup. eapply Hpaths, Hh.
      * apply Hpaths.
    + intros h row Hrow.
      assert (Hold : representative_gene_id row ∈ gene_id <$> gene_evolution db).
      { rewrite lookup_insert in Hrow. case_decide as E.
        - injection Hrow as <-. cbn. eapply Hrep, Hh.
        - eapply Hrep, Hrow. }
      rewrite fmap_app, elem_of_app.
      destruct (decide (representative_gene_id row = call_gene_id c)) as [->|Hne].
      * right. cbn. apply list_elem_of_here.
      * left. apply other_rows_ids. now split.
    + rewrite fmap_app. apply NoDup_app. split; [now apply other_rows_NoDup|]. split.
      * intros x Hx Hx'. cbn in Hx'. apply list_elem_of_singleton in Hx'.
        apply other_rows_ids in Hx. tauto.
      * apply NoDup_singleton.
    + intros e He. apply elem_of_app in He as [He|He].
      * apply other_rows_elem in He as [He _].
        destruct (Hlink e He) as (row & Hrow & Hr).
        rewrite lookup_insert. case_decide as E.
        -- eexists. split; [reflexivity|]. cbn. rewrite <- Hr. congruence.
        -- exists row. now split.
      * apply list_elem_of_singleton in He as ->. cbn.
        rewrite lookup_insert_eq. eexists. split; reflexivity.
Qed.

Lemma consistent_run (calls : list Call) (db : DB) :
  consistent db -> consistent (run db calls).
Proof.
  revert db. induction calls as [|c calls IH]; intros db H; [exact H|].
  apply IH, consistent_apply_call, H.
Qed.

End Consistency.

Section Counting.

Lemma total_genes_apply_call (db : DB) (c : Call) :
  total_genes (apply_call db c)
  = (total_genes db + Z.of_nat (returned_calls db [c]))%Z.
Proof.
  unfold apply_call. cbn [returned_calls].
  destruct (content_hashes db !! hash_of (call_gene c)) as [existing|] eqn:Hh.
  - rewrite (register_gene_existing _ _ _ _ _ _ Hh). unfold total_genes.
    rewrite (sum_fmap_perm _ _ _ (rows_insert_old db _ existing _ _ Hh)).
    rewrite (sum_fmap_perm _ _ _ (rows_lookup db _ existing Hh)).
    rewrite !fmap_cons. change (Sql.sum (?x :: ?t)) with (x + Sql.sum t)%Z.
    cbn [updated_row occurrence_count]. lia.
  - destruct (decide (call_gene_id c ∈ gene_id <$> gene_evolution db)) as [Hid|Hid].
    + rewrite (register_gene_reused_id _ _ _ _ _ Hh Hid). cbn. lia.
    + rewrite (register_gene_new _ _ _ _ _ Hh Hid). unfold total_genes.
      rewrite (sum_fmap_perm _ _ _ (rows_insert_new db _ _ _ Hh)), fmap_cons.
      change (Sql.sum (?x :: ?t)) with (x + Sql.sum t)%Z.
      cbn [created_row occurrence_count]. lia.
Qed.

Lemma total_genes_run (calls : list Call) (db : DB) :
  total_genes (run db calls) = (total_genes db + Z.of_nat (returned_calls db calls))%Z.
Proof.
  revert db. induction calls as [|c calls IH]; intros db.
  - cbn. lia.
  - rewrite run_cons, IH, total_genes_apply_call. cbn [returned_calls]. lia.
Qed.

End Counting.

(** X5.  In every store reached from the empty database by calls of
    [register_gene]: each count is at least 1; each path list is not empty
    and holds no path twice; each representative has a record in the
    ledger; no two records of the ledger have the same gene id; and the
    fingerprint of each record has a row, whose representative is the
    parent of the record, or its own gene id when it has no parent. *)
Theorem store_consistent (calls : list Call) : consistent (run init_database calls).
Proof. apply consistent_run, consistent_init. Qed.

(** X6.  On every store reached from the empty database, the total of the
    counts is the number of calls that returned, and is the number of
    rows plus the surplus counted over the duplicated rows; the
    duplicated rows are at most the rows and at most that surplus. *)
Theorem report_statistics (calls : list Call) :
  let db := run init_database calls in
  total_genes db = Z.of_nat (returned_calls init_database calls)
  /\ total_genes db = (unique_contents db + duplicate_instances db)%Z
  /\ (0 <= duplicated_contents db <= unique_contents db)%Z
  /\ (duplicated_contents db <= duplicate_instances db)%Z.
Proof.
  intros db. subst db. set (db := run init_database calls).
  assert (Hall : Forall (fun row => 1 <= occurrence_count row)%Z (rows db)).
  { apply Forall_forall. intros row Hrow. apply rows_elem in Hrow as (h & Hh).
    eapply (counted db), Hh. apply consistent_run, consistent_init. }
  split; [|split; [|split]].
  - unfold db. rewrite total_genes_run. reflexivity.
  - unfold total_genes, unique_contents, duplicate_instances.
    now apply total_unique_duplicates.
  - unfold duplicated_contents, unique_contents. split; [lia|].
    apply inj_le, length_filter.
  - unfold duplicated_contents, duplicate_instances. clear Hall.
    induction (rows db) as [|row l IH]; [reflexivity|].
    rewrite filter_cons.
    destruct (decide (duplicated row)) as [Hd|Hd]; [unfold duplicated in Hd|exact IH].
    rewrite fmap_cons. change (Sql.sum (?x :: ?t)) with (x + Sql.sum t)%Z.
    cbn [List.length]. rewrite Nat2Z.inj_succ. lia.
Qed.

(** ** The most duplicated contents *)

Section Top.

Lemma sorted_take_drop (n : nat) (l : list ContentHashRecord) :
  StronglySorted more_frequent l ->
  StronglySorted more_frequent (List.firstn n l)
  /\ forall a b, a ∈ List.firstn n l -> b ∈ List.skipn n l -> more_frequent a b.
Proof.
  intros H. revert n.
  induction H as [|h t Ht IH Hh]; intros [|n]; cbn [List.firstn List.skipn].
  - split; [constructor|]. intros a b Ha. now apply not_elem_of_nil in Ha.
  - split; [constructor|]. intros a b Ha. now apply not_elem_of_nil in Ha.
  - split; [constructor|]. intros a b Ha. now apply not_elem_of_nil in Ha.
  - destruct (IH n) as [Hs Hd]. split.
    + constructor; [exact Hs|].
      apply Forall_forall. intros x Hx. rewrite Forall_forall in Hh. apply Hh.
      now apply (subseteq_take n t).
    + intros a b Ha Hb. apply elem_of_cons in Ha as [->|Ha]; [|now apply Hd].
      rewrite Forall_forall in Hh. apply Hh. now apply (subseteq_drop n t).
Qed.

End Top.

(** X7.  [top_duplicates] lists the rows counted more than once, at most
    ten of them, the most frequent first: the rows left out are counted
    no more than any row listed, and each entry gives the representative,
    the count and the paths of a row of the store. *)
Theorem top_duplicates_spec (db : DB) :
  exists listed left_out,
    top_duplicates db = top_entry <$> listed
    /\ listed ++ left_out ≡ₚ filter duplicated (rows db)
    /\ List.length listed = Nat.min 10 (Z.to_nat (duplicated_contents db))
    /\ StronglySorted more_frequent listed
    /\ (forall a b, a ∈ listed -> b ∈ left_out -> more_frequent a b)
    /\ Forall (fun row => duplicated row
                          /\ exists h, content_hashes db !! h = Some row) listed.
Proof.
  set (dups := filter duplicated (rows db)).
  pose proof (more_frequent_sorted dups) as Hs.
  pose proof (order_where_perm more_often dups) as Hp.
  destruct (sorted_take_drop 10 _ Hs) as [Hf Hd].
  exists (List.firstn 10 (Sql.order_where more_often dups)),
         (List.skipn 10 (Sql.order_where more_often dups)).
  split; [reflexivity|]. split; [now rewrite List.firstn_skipn|].
  split; [|split; [exact Hf|split; [exact Hd|]]].
  - rewrite List.length_firstn. unfold duplicated_contents. fold dups.
    rewrite Nat2Z.id. now rewrite (Permutation_length Hp).
  - apply Forall_forall. intros row Hrow.
    assert (Hin : row ∈ dups).
    { rewrite <- Hp. now apply (subseteq_take 10). }
    apply list_elem_of_filter in Hin as [Hc Hr]. split; [exact Hc|].
    now apply rows_elem.
Qed.

(** ** The history of a gene *)

Section History.

Lemma cites_spec (id : string) (row : EvolutionRecord) :
  cites id row = true <-> gene_id row = id \/ parent_gene_id row = Some id.
Proof.
  unfold cites. rewrite orb_true_iff, String.eqb_eq.
  destruct (parent_gene_id row) as [p|].
  - rewrite String.eqb_eq. split; intros [H|H]; auto; [right; congruence|].
    right. congruence.
  - split; intros [H|H]; auto; discriminate.
Qed.

Lemma history_member (db : DB) (id : string) (row : EvolutionRecord) :
  row ∈ gene_evolution db ->
  gene_id row = id \/ parent_gene_id row = Some id ->
  history_entry row ∈ get_gene_history db id.
Proof.
  intros Hrow Hc. unfold get_gene_history.
  apply (list_elem_of_fmap_2 history_entry). rewrite order_where_perm.
  apply list_elem_of_In, List.filter_In. split; [now apply list_elem_of_In|].
  now apply cites_spec.
Qed.

End History.

(** X8.  [get_gene_history] answers with the records of the ledger whose
    gene id or whose parent is the given id, each once, sorted by
    timestamp: a record is in the answer exactly when it is such a record
    of the ledger. *)
Theorem gene_history_spec (db : DB) (id : string) :
  (exists selected,
      get_gene_history db id = history_entry <$> selected
      /\ selected ≡ₚ List.filter (cites id) (gene_evolution db)
      /\ StronglySorted by_timestamp selected)
  /\ (forall row, row ∈ gene_evolution db ->
      gene_id row = id \/ parent_gene_id row = Some id ->
      history_entry row ∈ get_gene_history db id)
  /\ (forall entry, entry ∈ get_gene_history db id ->
      exists row, row ∈ gene_evolution db
                  /\ (gene_id row = id \/ parent_gene_id row = Some id)
                  /\ entry = history_entry row).
Proof.
  pose proof (by_timestamp_sorted (List.filter (cites id) (gene_evolution db))) as Hs.
  pose proof (order_where_perm earlier (List.filter (cites id) (gene_evolution db)))
    as Hp.
  split; [|split].
  - eexists. split; [reflexivity|]. now split.
  - intros row Hrow Hc. now apply history_member.
  - intros entry He. unfold get_gene_history in He.
    apply list_elem_of_fmap in He as (row & -> & Hrow). rewrite Hp in Hrow.
    apply list_elem_of_In, List.filter_In in Hrow as [Hin Hc].
    exists row. split; [now apply list_elem_of_In|]. split; [now apply cites_spec|reflexivity].
Qed.

Lemma gene_history_spec_witness :
  history_entry (creation_record (clock_at "t0") sum_gene "G-1" "a.js")
  ∈ get_gene_history db_one "G-1".
Proof.
  apply (proj1 (proj2 (gene_history_spec db_one "G-1"))
           (creation_record (clock_at "t0") sum_gene "G-1" "a.js")).
  - apply list_elem_of_here.
  - left. reflexivity.
Defined.

(** X9.  After a call of [register_gene] that returns, the last record of
    the ledger is the one of the gene id registered, with the fingerprint
    of the gene; it is in the history of that gene id and, when the call
    returns a representative, that representative is its parent and the
    record is in the history of the representative too. *)
Theorem history_after_register (clk : nat -> Timestamp) (db db' : DB)
  (gene_data : GeneData) (id file_path : string) (result : Dict) :
  register_gene clk db gene_data id file_path = inr (db', result) ->
  exists row,
    List.last (gene_evolution db') row = row
    /\ row ∈ gene_evolution db'
    /\ gene_id row = id
    /\ content_hash row = hash_of gene_data
    /\ history_entry row ∈ get_gene_history db' id
    /\ (forall representative,
        result !! "representative_gene_id" = Some (PStr representative) ->
        parent_gene_id row = Some representative
        /\ history_entry row ∈ get_gene_history db' representative).
Proof.
  intros H.
  assert (Hres : forall existing,
             content_hashes db !! hash_of gene_data = Some existing ->
             result = dict [("is_duplicate", PBool true);
                            ("representative_gene_id", PStr (representative_gene_id existing));
                            ("occurrence_count", PInt (occurrence_count existing + 1));
                            ("action", PStr "linked_to_existing")]).
  { intros existing Hh. rewrite (register_gene_existing _ _ _ _ _ _ Hh) in H. congruence. }
  assert (Hnew : content_hashes db !! hash_of gene_data = None ->
                 result = dict [("is_duplicate", PBool false); ("gene_id", PStr id);
                                ("action", PStr "created_new")]).
  { intros Hh.
    destruct (decide (id ∈ gene_id <$> gene_evolution db)) as [Hid|Hid].
    - now rewrite (register_gene_reused_id _ _ _ _ _ Hh Hid) in H.
    - rewrite (register_gene_new _ _ _ _ _ Hh Hid) in H. congruence. }
  destruct (register_gene_returns _ _ _ _ _ _ _ H) as [[Hh ->]|(existing & Hh & ->)];
    cbn [gene_evolution].
  - exists (creation_record clk gene_data id file_path).
    assert (Hin : creation_record clk gene_data id file_path
                  ∈ gene_evolution db ++ [creation_record clk gene_data id file_path])
      by (apply elem_of_app; right; apply list_elem_of_here).
    split; [apply last_last|]. split; [exact Hin|]. split; [reflexivity|].
    split; [reflexivity|]. split.
    + apply history_member; [exact Hin|now left].
    + intros representative Hr. rewrite (Hnew Hh) in Hr. discriminate Hr.
  - exists (duplication_record clk existing gene_data id file_path).
    assert (Hin : duplication_record clk existing gene_data id file_path
                  ∈ other_rows id (gene_evolution db)
                    ++ [duplication_record clk existing gene_data id file_path])
      by (apply elem_of_app; right; apply list_elem_of_here).
    split; [apply last_last|]. split; [exact Hin|]. split; [reflexivity|].
    split; [reflexivity|]. split.
    + apply history_member; [exact Hin|now left].
    + intros representative Hr. rewrite (Hres _ Hh) in Hr.
      assert (representative = representative_gene_id existing) as ->.
      { change (Some (PStr (representative_gene_id existing))
                = Some (PStr representative)) in Hr. congruence. }
      split; [reflexivity|]. apply history_member; [exact Hin|now right].
Qed.

Lemma history_after_register_witness :
  exists row,
    List.last (gene_evolution db_two) row = row
    /\ row ∈ gene_evolution db_two
    /\ gene_id row = "G-1"
    /\ content_hash row = hash_of sum_gene
    /\ history_entry row ∈ get_gene_history db_two "G-1"
    /\ (forall representative,
        dict [("is_duplicate", PBool true);
              ("representative_gene_id", PStr "G-1");
              ("occurrence_count", PInt 2);
              ("action", PStr "linked_to_existing")] !! "representative_gene_id"
        = Some (PStr representative) ->
        parent_gene_id row = Some representative
        /\ history_entry row ∈ get_gene_history db_two representative).
Proof.
  apply (history_after_register (clock_at "t0") db_one db_two sum_gene "G-1" "a.js"
           (dict [("is_duplicate", PBool true);
                  ("representative_gene_id", PStr "G-1");
                  ("occurrence_count", PInt 2);
                  ("action", PStr "linked_to_existing")])).
  by_compute.
Defined.

Import Reconstruction.

(** ** The loop of [reconstruct_file] *)

Section Walk.

Lemma walk_turn (g : GeneRow) (rest : list GeneRow) (acc : string) (n : Z) :
  walk (g :: rest) acc n
  = match turn g with
    | Raises => None
    | Appends code => walk rest (acc ++ code ++ two_newlines) (n + 1)
    | Replaces text => Some (text, 1%Z)
    | Passes => walk rest acc n
    end.
Proof.
  unfold turn. cbn [walk]. destruct (content g) as [d|]; [|reflexivity].
  destruct (d !! "type") as [[| | | |t]|]; try reflexivity.
  destruct (String.eqb t "function").
  - now destruct (default (PStr "") (d !! "code")).
  - now destruct (String.eqb t "full_file").
Qed.

Lemma codes_cons (g : GeneRow) (genes : list GeneRow) :
  codes (g :: genes)
  = match turn g with
    | Appends code => code :: codes genes
    | _ => codes genes
    end.
Proof. unfold codes. cbn. now destruct (turn g). Qed.

Lemma walk_goes_on (genes rest : list GeneRow) (acc : string) (n : Z) :
  Forall goes_on genes ->
  walk (genes ++ rest) acc n
  = walk rest (gathered acc (codes genes)) (n + Z.of_nat (List.length (codes genes))).
Proof.
  intros H. revert acc n. induction H as [|g genes Hg _ IH]; intros acc n.
  - cbn [app codes omap gathered List.length].
    change (Z.of_nat 0) with 0%Z. now rewrite Z.add_0_r.
  - cbn [app]. rewrite walk_turn, codes_cons. unfold goes_on in Hg.
    destruct (turn g); try contradiction.
    + rewrite IH. cbn [gathered List.length]. rewrite Nat2Z.inj_succ.
      f_equal. lia.
    + apply IH.
Qed.

Lemma walk_bounds (genes : list GeneRow) (acc : string) (n : Z) (v : PyVal) (m : Z) :
  walk genes acc n = Some (v, m) ->
  (m = 1 \/ n <= m <= n + Z.of_nat (List.length genes))%Z.
Proof.
  revert acc n. induction genes as [|g genes IH]; intros acc n.
  - cbn. intros [= _ <-]. right. lia.
  - rewrite walk_turn. destruct (turn g); try discriminate.
    + intros H. apply IH in H. cbn [List.length]. lia.
    + intros [= _ <-]. now left.
    + intros H. apply IH in H. cbn [List.length]. lia.
Qed.

Lemma select_genes_perm (table : list GeneRow) (path version : string) :
  exists matching,
    select_genes table path version ≡ₚ List.filter matching table
    /\ (forall g, matching g = true -> file_path g = path)
    /\ (version = "latest" -> forall g, file_path g = path -> matching g = true).
Proof.
  eexists. split; [apply order_by_perm|]. split.
  - intros g Hg. apply andb_prop in Hg as [Hg _]. now apply String.eqb_eq.
  - intros -> g <-. now rewrite String.eqb_refl.
Qed.

Lemma filter_none (matching : GeneRow -> bool) (table : list GeneRow) :
  (forall g, g ∈ table -> matching g = false) -> List.filter matching table = [].
Proof.
  induction table as [|g table IH]; [reflexivity|]. intros H. cbn [List.filter].
  rewrite (H g) by apply list_elem_of_here.
  apply IH. intros g' Hg'. apply H. now apply list_elem_of_further.
Qed.

Lemma take_length (n : nat) (s : string) :
  (n <= String.length s)%nat -> String.length (Py.take n s) = n.
Proof.
  revert s. induction n as [|n IH]; intros s H; [reflexivity|].
  destruct s as [|c s]; [cbn in H; lia|]. cbn in *. rewrite IH; lia.
Qed.

Lemma select_none (table : list GeneRow) (path version : string) :
  (forall g, g ∈ table -> file_path g <> path) -> select_genes table path version = [].
Proof.
  intros H. destruct (select_genes_perm table path version) as (matching & Hp & Hm & _).
  apply Permutation_nil_r. rewrite Hp, filter_none; [reflexivity|].
  intros g Hg. destruct (matching g) eqn:E; [|reflexivity].
  apply Hm in E. now apply H in Hg.
Qed.

Lemma no_genes_latest (table : list GeneRow) (path : string) :
  reconstruct_file (Some table) path "latest" = NoGenes path "latest"
  <-> forall g, g ∈ table -> file_path g <> path.
Proof.
  split; [|intros H; unfold reconstruct_file; now rewrite (select_none table path "latest" H)].
  unfold reconstruct_file.
  destruct (select_genes table path "latest") as [|g0 genes] eqn:E.
  - intros _ g Hg Hpath.
    destruct (select_genes_perm table path "latest") as (matching & Hp & _ & Hl).
    rewrite E in Hp. symmetry in Hp. apply Permutation_nil_r in Hp.
    assert (Hin : g ∈ List.filter matching table).
    { apply list_elem_of_In, List.filter_In. split; [now apply list_elem_of_In|].
      now apply Hl. }
    rewrite Hp in Hin. now apply not_elem_of_nil in Hin.
  - destruct (walk (g0 :: genes) "" 0) as [[[] ?]|]; discriminate.
Qed.

Lemma success_genes_used (table : list GeneRow) (path version : string)
  (r : Reconstructed) :
  reconstruct_file (Some table) path version = Success r ->
  genes_used r = List.map gene_id (select_genes table path version).
Proof.
  unfold reconstruct_file.
  destruct (select_genes table path version) as [|g genes]; [discriminate|].
  destruct (walk (g :: genes) "" 0) as [[[] ?]|]; try discriminate.
  now intros [= <-].
Qed.

End Walk.

(** X10.  When no row of the table has the path, [reconstruct_file]
    answers "No genes found" whatever the version; for the version
    "latest" it answers so only then. *)
Theorem reconstruct_no_genes (table : list GeneRow) (path version : string) :
  ((forall g, g ∈ table -> file_path g <> path) ->
   reconstruct_file (Some table) path version = NoGenes path version)
  /\ (reconstruct_file (Some table) path "latest" = NoGenes path "latest"
      <-> forall g, g ∈ table -> file_path g <> path).
Proof.
  split; [|apply no_genes_latest].
  intros H. unfold reconstruct_file. now rewrite (select_none table path version H).
Qed.

Lemma reconstruct_no_genes_witness :
  reconstruct_file (Some functions_table) "a.js" "v1" = NoGenes "a.js" "v1".
Proof.
  apply (proj1 (reconstruct_no_genes functions_table "a.js" "v1")).
  intros g Hg. unfold functions_table in Hg.
  repeat (apply elem_of_cons in Hg as [->|Hg]; [discriminate|]).
  now apply not_elem_of_nil in Hg.
Defined.

(** X11.  When the first gene of the selection that does not let the loop
    go on is a full-file gene, [reconstruct_file] returns the content that
    gene stores, with [gene_count] 1 and the ids of all the genes selected,
    whatever the newer function genes and the older genes hold; it fails
    when the stored content is not a text. *)
Theorem reconstruct_full_file (table : list GeneRow) (path version : string)
  (newer older : list GeneRow) (full : GeneRow) (text : PyVal) :
  select_genes table path version = newer ++ full :: older ->
  Forall goes_on newer ->
  turn full = Replaces text ->
  reconstruct_file (Some table) path version
  = match text with
    | PStr stored =>
        Success {| r_file_path := path;
                   r_version := version;
                   reconstructed_content := stored;
                   gene_count := 1;
                   genes_used := List.map gene_id (newer ++ full :: older);
                   content_hash := Py.take 8 (SHA256.hexdigest (Py.encode stored)) |}
    | _ => Failed path version
    end.
Proof.
  intros Hsel Hnewer Hfull. unfold reconstruct_file. rewrite Hsel.
  rewrite (walk_goes_on newer (full :: older) "" 0 Hnewer), walk_turn, Hfull.
  destruct newer; destruct text; reflexivity.
Qed.

Lemma reconstruct_full_file_witness :
  reconstruct_file (Some genes_table) "a.js" "latest"
  = Success {| r_file_path := "a.js";
               r_version := "latest";
               reconstructed_content := "whole file";
               gene_count := 1;
               genes_used := ["G2"; "F1"; "G1"];
               content_hash := Py.take 8 (SHA256.hexdigest (Py.encode "whole file")) |}.
Proof.
  apply (reconstruct_full_file genes_table "a.js" "latest"
           [mkRow "G2" "a.js" 3 (function_json "g2()")]
           [mkRow "G1" "a.js" 1 (function_json "g1()")]
           (mkRow "F1" "a.js" 2 (full_file_json "whole file"))
           (PStr "whole file")).
  - by_compute.
  - constructor; [exact I|constructor].
  - reflexivity.
Defined.

(** X12.  When no gene selected is a full-file gene and none raises,
    [reconstruct_file] returns the codes of the function genes, newest
    first, each followed by a blank line; [gene_count] is the number of
    function genes and genes of other types add nothing. *)
Theorem reconstruct_functions_only (table : list GeneRow) (path version : string)
  (genes : list GeneRow) :
  select_genes table path version = genes ->
  genes <> [] ->
  Forall goes_on genes ->
  reconstruct_file (Some table) path version
  = Success {| r_file_path := path;
               r_version := version;
               reconstructed_content := gathered "" (codes genes);
               gene_count := Z.of_nat (List.length (codes genes));
               genes_used := List.map gene_id genes;
               content_hash :=
                 Py.take 8 (SHA256.hexdigest (Py.encode (gathered "" (codes genes)))) |}.
Proof.
  intros Hsel Hne Hall. unfold reconstruct_file. rewrite Hsel.
  pose proof (walk_goes_on genes [] "" 0 Hall) as Hw. rewrite app_nil_r in Hw.
  rewrite Hw. cbn [walk]. destruct genes; [congruence|reflexivity].
Qed.

Lemma reconstruct_functions_only_witness :
  reconstruct_file (Some functions_table) "c.js" "latest"
  = Success {| r_file_path := "c.js";
               r_version := "latest";
               reconstructed_content :=
                 gathered "" (codes (select_genes functions_table "c.js" "latest"));
               gene_count :=
                 Z.of_nat (List.length (codes (select_genes functions_table "c.js" "latest")));
               genes_used :=
                 List.map gene_id (select_genes functions_table "c.js" "latest");
               content_hash :=
                 Py.take 8
                   (SHA256.hexdigest
                      (Py.encode
                         (gathered ""
                            (codes (select_genes functions_table "c.js" "latest"))))) |}.
Proof.
  apply (reconstruct_functions_only functions_table "c.js" "latest"
           (select_genes functions_table "c.js" "latest")).
  - reflexivity.
  - vm_compute. discriminate.
  - vm_compute. repeat constructor.
Defined.

(** X13.  When the loop reaches a gene whose content does not decode, or a
    function gene whose code is not a text, before any full-file gene,
    [reconstruct_file] answers "Reconstruction failed" and nothing of what
    it had gathered is returned. *)
Theorem reconstruct_raises (table : list GeneRow) (path version : string)
  (newer older : list GeneRow) (bad : GeneRow) :
  select_genes table path version = newer ++ bad :: older ->
  Forall goes_on newer ->
  turn bad = Raises ->
  reconstruct_file (Some table) path version = Failed path version.
Proof.
  intros Hsel Hnewer Hbad. unfold reconstruct_file. rewrite Hsel.
  rewrite (walk_goes_on newer (bad :: older) "" 0 Hnewer), walk_turn, Hbad.
  now destruct newer.
Qed.

Lemma reconstruct_raises_witness :
  reconstruct_file (Some broken_table) "d.js" "latest" = Failed "d.js" "latest".
Proof.
  apply (reconstruct_raises broken_table "d.js" "latest" []
           [mkRow "F1" "d.js" 1 (full_file_json "whole file")]
           (mkRow "B1" "d.js" 2 JInvalid)).
  - by_compute.
  - constructor.
  - reflexivity.
Defined.

(** X14.  Every successful answer of [reconstruct_file] carries the path
    and the version asked for, the ids of all the genes selected (at least
    one, and not only of those that gave content), a [gene_count] between 0
    and that number, and as [content_hash] the first 8 hexadecimal digits
    of the SHA-256 of the content returned; all the genes selected are of
    the path. *)
Theorem reconstruct_success_shape (conn : option (list GeneRow))
  (path version : string) (r : Reconstructed) :
  reconstruct_file conn path version = Success r ->
  exists table,
    conn = Some table
    /\ r_file_path r = path
    /\ r_version r = version
    /\ genes_used r = List.map gene_id (select_genes table path version)
    /\ genes_used r <> []
    /\ (0 <= gene_count r <= Z.of_nat (List.length (genes_used r)))%Z
    /\ content_hash r
       = Py.take 8 (SHA256.hexdigest (Py.encode (reconstructed_content r)))
    /\ String.length (content_hash r) = 8%nat
    /\ Forall (fun g => file_path g = path) (select_genes table path version).
Proof.
  unfold reconstruct_file. destruct conn as [table|]; [|discriminate].
  destruct (select_genes table path version) as [|g genes] eqn:Hsel; [discriminate|].
  destruct (walk (g :: genes) "" 0) as [[v m]|] eqn:Hw; [|discriminate].
  destruct v; try discriminate. intros [= <-].
  cbn [r_file_path r_version reconstructed_content gene_count genes_used content_hash].
  exists table. rewrite Hsel. repeat (split; [reflexivity|]).
  split; [discriminate|]. split.
  - apply walk_bounds in Hw. cbn [List.length List.map] in *.
    rewrite List.length_map. lia.
  - split; [reflexivity|]. split.
    + apply (take_length 8 (SHA256.hexdigest (Py.encode s))).
      rewrite hexdigest_length. lia.
    + destruct (select_genes_perm table path version) as (matching & Hp & Hm & _).
      rewrite Hsel in Hp. apply Forall_forall. intros x Hx. apply Hm.
      rewrite Hp in Hx. apply list_elem_of_In, List.filter_In in Hx. tauto.
Qed.

Lemma reconstruct_success_shape_witness :
  exists table,
    Some genes_table = Some table
    /\ r_file_path whole_file_answer = "a.js"
    /\ r_version whole_file_answer = "latest"
    /\ genes_used whole_file_answer
       = List.map gene_id (select_genes table "a.js" "latest")
    /\ genes_used whole_file_answer <> []
    /\ (0 <= gene_count whole_file_answer
          <= Z.of_nat (List.length (genes_used whole_file_answer)))%Z
    /\ content_hash whole_file_answer
       = Py.take 8 (SHA256.hexdigest (Py.encode (reconstructed_content whole_file_answer)))
    /\ String.length (content_hash whole_file_answer) = 8%nat
    /\ Forall (fun g => file_path g = "a.js") (select_genes table "a.js" "latest").
Proof.
  apply (reconstruct_success_shape (Some genes_table) "a.js" "latest" whole_file_answer).
  by_compute.
Defined.

(** ** The version filter *)

Section Like.








End Like.



(** ** The files on record *)

Section Listing.

Lemma max_created_at_acc (others : list GeneRow) (m0 : Z) :
  (m0 <= fold_left (fun m g => Z.max m (created_at g)) others m0)%Z
  /\ (forall g, g ∈ others ->
       (created_at g <= fold_left (fun m g => Z.max m (created_at g)) others m0)%Z)
  /\ (fold_left (fun m g => Z.max m (created_at g)) others m0 = m0
      \/ exists g, g ∈ others
                   /\ created_at g
                      = fold_left (fun m g => Z.max m (created_at g)) others m0).
Proof.
  revert m0. induction others as [|h t IH]; intros m0; cbn [fold_left].
  - split; [lia|]. split; [|now left]. intros g Hg. now apply not_elem_of_nil in Hg.
  - destruct (IH (Z.max m0 (created_at h))) as (Hle & Hall & Hat).
    split; [lia|]. split.
    + intros g Hg. apply elem_of_cons in Hg as [->|Hg]; [lia|now apply Hall].
    + destruct Hat as [Hat|(g & Hg & Hat)].
      * destruct (Z.max_spec m0 (created_at h)) as [[_ E]|[_ E]].
        -- right. exists h. split; [apply list_elem_of_here|]. rewrite Hat. lia.
        -- left. rewrite Hat. lia.
      * right. exists g. split; [now apply list_elem_of_further|exact Hat].
Qed.

Lemma same_path_spec (path : string) (g : GeneRow) :
  same_path path g = true <-> file_path g = path.
Proof. apply String.eqb_eq. Qed.

Lemma other_paths_elem (path : string) (rest : list GeneRow) (g : GeneRow) :
  g ∈ List.filter (fun g' => negb (same_path path g')) rest
  <-> g ∈ rest /\ file_path g <> path.
Proof.
  rewrite list_elem_of_In, List.filter_In, <- list_elem_of_In, negb_true_iff.
  rewrite <- (same_path_spec path g). now destruct (same_path path g).
Qed.

Lemma filter_other_paths (p q : string) (rest : list GeneRow) :
  p <> q ->
  List.filter (same_path p) (List.filter (fun g' => negb (same_path q g')) rest)
  = List.filter (same_path p) rest.
Proof.
  intros Hpq. induction rest as [|g rest IH]; [reflexivity|]. cbn [List.filter].
  destruct (same_path q g) eqn:Eq; cbn [negb List.filter].
  - destruct (same_path p g) eqn:Ep; [|exact IH].
    apply same_path_spec in Eq, Ep. congruence.
  - now rewrite IH.
Qed.

Lemma describes_head (g : GeneRow) (rest : list GeneRow) :
  describes (g :: rest)
    (mkInfo (file_path g)
            (Z.of_nat (S (List.length (List.filter (same_path (file_path g)) rest))))
            (max_created_at g (List.filter (same_path (file_path g)) rest))).
Proof.
  unfold describes. cbn [info_file_path info_gene_count info_last_update].
  destruct (max_created_at_acc (List.filter (same_path (file_path g)) rest)
                               (created_at g)) as (Hle & Hall & Hat).
  fold (max_created_at g (List.filter (same_path (file_path g)) rest)) in Hle, Hall, Hat.
  split; [|split].
  - cbn [List.filter]. unfold same_path at 2. now rewrite String.eqb_refl.
  - destruct Hat as [Hat|(g' & Hg' & Hat)].
    + exists g. split; [apply list_elem_of_here|]. split; [reflexivity|now symmetry].
    + exists g'. apply list_elem_of_In, List.filter_In in Hg' as [Hin Hp].
      split; [apply list_elem_of_further; now apply list_elem_of_In|].
      split; [now apply same_path_spec|exact Hat].
  - intros g' Hg' Hp. apply elem_of_cons in Hg' as [->|Hg']; [exact Hle|].
    apply Hall, list_elem_of_In, List.filter_In.
    split; [now apply list_elem_of_In|now apply same_path_spec].
Qed.

Lemma describes_other (g : GeneRow) (rest : list GeneRow) (f : FileInfo) :
  info_file_path f <> file_path g ->
  describes (List.filter (fun g' => negb (same_path (file_path g) g')) rest) f ->
  describes (g :: rest) f.
Proof.
  intros Hne (Hc & (g1 & Hg1 & Hp1 & Ht1) & Hmax). split; [|split].
  - rewrite Hc, (filter_other_paths _ _ rest Hne). cbn [List.filter].
    destruct (same_path (info_file_path f) g) eqn:E; [|reflexivity].
    apply same_path_spec in E. congruence.
  - exists g1. apply other_paths_elem in Hg1 as [Hg1 _].
    split; [now apply list_elem_of_further|now split].
  - intros g' Hg' Hp. apply elem_of_cons in Hg' as [->|Hg']; [congruence|].
    apply Hmax; [|exact Hp]. apply other_paths_elem. split; [exact Hg'|congruence].
Qed.

Lemma group_by_file_path_spec (fuel : nat) (table : list GeneRow) :
  (List.length table <= fuel)%nat ->
  NoDup (info_file_path <$> group_by_file_path fuel table)
  /\ (forall path, path ∈ info_file_path <$> group_by_file_path fuel table
                   <-> exists g, g ∈ table /\ file_path g = path)
  /\ Forall (describes table) (group_by_file_path fuel table)
  /\ Sql.sum (info_gene_count <$> group_by_file_path fuel table)
     = Z.of_nat (List.length table).
Proof.
  revert table. induction fuel as [|fuel IH]; intros [|g rest] Hlen;
    cbn [List.length] in Hlen; try lia.
  - cbn. split; [constructor|]. split; [|split; [constructor|reflexivity]].
    intros path. split; [intros H; now apply not_elem_of_nil in H|].
    intros (g & Hg & _). now apply not_elem_of_nil in Hg.
  - cbn. split; [constructor|]. split; [|split; [constructor|reflexivity]].
    intros path. split; [intros H; now apply not_elem_of_nil in H|].
    intros (g & Hg & _). now apply not_elem_of_nil in Hg.
  - cbn [group_by_file_path].
    set (others := List.filter (fun g' => negb (same_path (file_path g) g')) rest).
    pose proof (List.filter_length (same_path (file_path g)) rest) as Hsplit.
    fold others in Hsplit.
    destruct (IH others) as (Hnd & Hmem & Hdesc & Hsum); [lia|].
    rewrite !fmap_cons. cbn [info_file_path info_gene_count].
    assert (Hfresh : forall path, path ∈ info_file_path <$> group_by_file_path fuel others
                                  -> path <> file_path g).
    { intros path Hpath. apply Hmem in Hpath as (g' & Hg' & <-).
      now apply other_paths_elem in Hg'. }
    split; [|split; [|split]].
    + constructor; [|exact Hnd]. intros Hin. now apply Hfresh in Hin.
    + intros path. rewrite elem_of_cons, Hmem. split.
      * intros [->|(g' & Hg' & Hp)].
        -- exists g. split; [apply list_elem_of_here|reflexivity].
        -- exists g'. apply other_paths_elem in Hg' as [Hg' _].
           split; [now apply list_elem_of_further|exact Hp].
      * intros (g' & Hg' & Hp). apply elem_of_cons in Hg' as [->|Hg']; [now left|].
        destruct (decide (path = file_path g)) as [E|E]; [now left|]. right.
        exists g'. split; [|exact Hp]. apply other_paths_elem. split; [exact Hg'|congruence].
    + constructor; [apply describes_head|].
      apply Forall_forall. intros f Hf. apply describes_other.
      * apply Hfresh. now apply (list_elem_of_fmap_2 info_file_path).
      * rewrite Forall_forall in Hdesc. now apply Hdesc.
    + unfold Sql.sum in *. cbn [foldr List.length]. rewrite Hsum. lia.
Qed.

Lemma latest_length (table : list GeneRow) (path : string) :
  List.length (select_genes table path "latest")
  = List.length (List.filter (same_path path) table).
Proof. rewrite select_latest. apply Permutation_length, order_by_perm. Qed.

End Listing.

(** X16.  [list_available_files] lists every file path of the table once,
    the most recently updated first; [gene_count] is the number of rows of
    the path and [last_update] the latest of their instants; the counts add
    up to the number of rows, and [total_files] is the number of entries. *)
Theorem list_available_files_spec (table : list GeneRow) :
  exists files,
    list_available_files (Some table) = Listed files (Z.of_nat (List.length files))
    /\ NoDup (info_file_path <$> files)
    /\ (forall path, path ∈ info_file_path <$> files
                     <-> exists g, g ∈ table /\ file_path g = path)
    /\ StronglySorted last_updated_first files
    /\ Forall (describes table) files
    /\ Sql.sum (info_gene_count <$> files) = Z.of_nat (List.length table).
Proof.
  destruct (group_by_file_path_spec (List.length table) table (le_n _))
    as (Hnd & Hmem & Hdesc & Hsum).
  pose proof (order_where_perm updated_later
                (group_by_file_path (List.length table) table)) as Hp.
  eexists. split; [reflexivity|]. split; [|split; [|split; [|split]]].
  - now rewrite Hp.
  - intros path. now rewrite Hp.
  - apply last_updated_sorted.
  - now rewrite Hp.
  - rewrite <- Hsum. apply sum_perm. now rewrite Hp.
Qed.

(** X17.  The files [list_available_files] lists are those for which
    [reconstruct_file] finds genes: for a path listed the latest version is
    never answered with "No genes found", a successful answer uses as many
    genes as the listing counts, and for a path not listed the answer is
    "No genes found". *)
Theorem listed_files_have_genes (table : list GeneRow) (files : list FileInfo)
  (total : Z) (path : string) :
  list_available_files (Some table) = Listed files total ->
  (forall f, f ∈ files ->
     reconstruct_file (Some table) (info_file_path f) "latest"
       <> NoGenes (info_file_path f) "latest"
     /\ forall r, reconstruct_file (Some table) (info_file_path f) "latest" = Success r ->
                  Z.of_nat (List.length (genes_used r)) = info_gene_count f)
  /\ (path ∉ info_file_path <$> files ->
      reconstruct_file (Some table) path "latest" = NoGenes path "latest").
Proof.
  intros [= <- _].
  destruct (group_by_file_path_spec (List.length table) table (le_n _))
    as (_ & Hmem & Hdesc & _).
  pose proof (order_where_perm updated_later
                (group_by_file_path (List.length table) table)) as Hp.
  split.
  - intros f Hf. rewrite Hp in Hf.
    rewrite Forall_forall in Hdesc. destruct (Hdesc f Hf) as (Hc & (g & Hg & Hpath & _) & _).
    split.
    + intros Hno. exact (proj1 (no_genes_latest table (info_file_path f)) Hno g Hg Hpath).
    + intros r Hr. apply success_genes_used in Hr. rewrite Hr, List.length_map.
      now rewrite latest_length, Hc.
  - intros Hout. apply no_genes_latest. intros g Hg Hpath. apply Hout.
    rewrite Hp. apply Hmem. now exists g.
Qed.

Lemma listed_files_have_genes_witness :
  (forall f, f ∈ [mkInfo "b.js" 2 5; mkInfo "a.js" 3 3] ->
     reconstruct_file (Some genes_table) (info_file_path f) "latest"
       <> NoGenes (info_file_path f) "latest"
     /\ forall r, reconstruct_file (Some genes_table) (info_file_path f) "latest"
                  = Success r ->
                  Z.of_nat (List.length (genes_used r)) = info_gene_count f)
  /\ ("c.js" ∉ info_file_path <$> [mkInfo "b.js" 2 5; mkInfo "a.js" 3 3] ->
      reconstruct_file (Some genes_table) "c.js" "latest" = NoGenes "c.js" "latest").
Proof.
  apply (listed_files_have_genes genes_table [mkInfo "b.js" 2 5; mkInfo "a.js" 3 3] 2 "c.js").
  by_compute.
Defined.
